(** * BlockchainSecurityScanner: connection manager, rate limiter and risk scoring

    A shallow embedding of the logic-bearing parts of the repository:

    - [RateLimit]  : [ai-analyzer.py], class [RateLimiter] and the
                     [rate_limit] decorator;
    - [Conn]       : [app.py], [NETWORK_CONFIGS], [web3_providers] and
                     [get_web3_provider];
    - [Text]       : the substring tests and the two regular expressions of
                     [analyze_contract];
    - [Scanner]    : [ai-analyzer.py] ([analyze_smart_contract],
                     [analyze_transaction_patterns],
                     [calculate_combined_risk_score]) and
                     [security_scanner.py] ([analyze_contract],
                     [check_wallet_safety], [generate_recommendations]);
    - [Report]     : [utils.py], [generate_report].

    [Scenarios] holds the concrete inputs of the examples and [Stated] the
    statements of the specification that the code does not satisfy; the
    modules whose names end in [Facts] hold the proofs.

    Conventions of the embedding.

    - Wall-clock instants ([datetime.now()]) are integers counting
      microseconds, the resolution of Python's [datetime]; a
      [timedelta(seconds=n)] is [n * 10^6] of them.
    - Risk scores are Python floats.  They are embedded as exact rationals
      ([Q]): every statement about a score is about the number the formula
      denotes, the rounding of binary64 is not part of the model.  Where
      the rounding decides a statement, the arithmetic is also given over
      binary64 itself ([Binary64], on the primitive floats).
    - Everything that is answered by the outside world (an RPC endpoint, the
      inference client) is an explicit argument: a [World] for the
      endpoints, an [outcome] for the inference call.
    - A Python exception is a value of an error type and the functions that
      can raise return a sum. *)

From Stdlib Require Import ZArith QArith Qminmax Lia Lqa List String Ascii Bool Sorted.
From Stdlib Require Import PrimFloat.
From stdpp Require Import gmap strings list.
Import ListNotations.

Open Scope Z_scope.

(** Decimal constants of Python are read as the nearest binary64 number,
    here as there. *)
Set Warnings "-inexact-float".

(** What a call into a library or a remote service does: it returns a value
    or it raises, with the text of the exception. *)
Inductive outcome (A : Type) : Type :=
| Returns (a : A)
| Raises (msg : string).
Arguments Returns {A} a.
Arguments Raises {A} msg.

(* ===================================================================== *)
(** ** The rate limiter ([ai-analyzer.py], lines 22-67) *)
(* ===================================================================== *)

Module RateLimit.

(** [class RateLimiter]: [requests] holds the instants of the admitted
    requests, oldest first (they are appended). *)
Record RateLimiter : Type := mkLimiter {
  max_requests : Z;
  time_window : Z;            (* in seconds *)
  requests : list Z           (* instants, in microseconds *)
}.

(** [timedelta(seconds=n)] in microseconds. *)
Definition timedelta_seconds (n : Z) : Z := n * 1000000.

(** [RateLimiter.__init__]. *)
Definition new_limiter (max_requests time_window : Z) : RateLimiter :=
  mkLimiter max_requests time_window [].

(** [RateLimiter.allow_request], with [now] the value of [datetime.now()]. *)
Definition allow_request (now : Z) (self : RateLimiter) : bool * RateLimiter :=
  let kept :=
    List.filter
      (fun req_time => now - req_time <? timedelta_seconds (time_window self))
      (requests self) in
  if Z.of_nat (List.length kept) >=? max_requests self
  then (false, mkLimiter (max_requests self) (time_window self) kept)
  else (true, mkLimiter (max_requests self) (time_window self) (kept ++ [now])).

(** Python's [min] of a non-empty list. *)
Definition list_min (x : Z) (xs : list Z) : Z := fold_left Z.min xs x.

(** [RateLimiter.wait_time], in microseconds ([total_seconds()] is this
    number divided by [10^6]). *)
Definition wait_time (now : Z) (self : RateLimiter) : Z :=
  match requests self with
  | [] => 0
  | r :: rs =>
      let oldest_request := list_min r rs in
      let next_window := oldest_request + timedelta_seconds (time_window self) in
      if now >=? next_window then 0 else next_window - now
  end.

(** The global limiters. *)
Definition contract_limiter : RateLimiter := new_limiter 50 60.
Definition transaction_limiter : RateLimiter := new_limiter 50 60.

(** The state a run of the decorated function goes through: the limiter,
    the clock, and the instants at which the wrapped function was entered
    (this is the log the throttling is judged by). *)
Record Run : Type := mkRun {
  limiter : RateLimiter;
  clock : Z;
  initiated : list Z
}.

(** [wrapper] of [rate_limit(limiter)]: one call of the decorated function.
    Both reads of [datetime.now()] see the instant of the call,
    [time.sleep(w)] moves the clock by [w]; the wrapped function is then
    entered, whatever [allow_request] answered. *)
Definition wrapper (st : Run) : Run :=
  let '(allowed, lim) := allow_request (clock st) (limiter st) in
  let clock' :=
    if allowed then clock st
    else
      let w := wait_time (clock st) lim in
      if 0 <? w then clock st + w else clock st in
  mkRun lim clock' (initiated st ++ [clock']).

(** A sequence of calls from one thread: [gaps] gives, for each call, the
    time that passes between the previous call and this one. *)
Fixpoint run_calls (gaps : list Z) (st : Run) : Run :=
  match gaps with
  | [] => st
  | g :: gaps' => run_calls gaps' (wrapper (mkRun (limiter st) (clock st + g) (initiated st)))
  end.

(** The number of calls entered in the trailing window [(t - w, t]]. *)
Definition initiated_in_window (w t : Z) (calls : list Z) : nat :=
  List.length (List.filter (fun c => (t - w <? c) && (c <=? t)) calls).

(** The number of recorded instants that lie inside the window at [now]. *)
Definition in_window_count (now : Z) (self : RateLimiter) : nat :=
  List.length
    (List.filter
       (fun req_time => now - req_time <? timedelta_seconds (time_window self))
       (requests self)).

End RateLimit.

(* ===================================================================== *)
(** ** The connection manager ([app.py], lines 20-190) *)
(* ===================================================================== *)

Module Conn.

(** One entry of [NETWORK_CONFIGS].  Every entry of the table has the
    keys [timeout] and [retry_count], so the defaults of [config.get] are
    never taken. *)
Record NetworkConfig : Type := mkConfig {
  rpc_urls : list string;
  explorer_url : string;
  currency_symbol : string;
  timeout : Z;
  retry_count : Z
}.

Definition NETWORK_CONFIGS : gmap Z NetworkConfig :=
  <[ 1 := mkConfig
       [ "https://eth.drpc.org"; "https://ethereum.publicnode.com";
         "https://cloudflare-eth.com"; "https://eth-mainnet.public.blastapi.io" ]
       "https://etherscan.io" "ETH" 10 3 ]>
  (<[ 5 := mkConfig
       [ "https://goerli.infura.io/v3/YOUR-PROJECT-ID";
         "https://ethereum-goerli.publicnode.com";
         "https://goerli.gateway.tenderly.co" ]
       "https://goerli.etherscan.io" "gETH" 10 3 ]>
  (<[ 56 := mkConfig
       [ "https://bsc-dataseed.binance.org"; "https://bsc-dataseed1.defibit.io";
         "https://bsc-dataseed1.ninicoin.io"; "https://bsc.publicnode.com" ]
       "https://bscscan.com" "BNB" 10 3 ]>
  (<[ 97 := mkConfig
       [ "https://data-seed-prebsc-1-s1.binance.org:8545";
         "https://data-seed-prebsc-2-s1.binance.org:8545";
         "https://bsc-testnet.publicnode.com" ]
       "https://testnet.bscscan.com" "tBNB" 10 3 ]>
  (<[ 137 := mkConfig
       [ "https://polygon-rpc.com"; "https://polygon.drpc.org";
         "https://polygon-bor.publicnode.com"; "https://polygon.gateway.tenderly.co" ]
       "https://polygonscan.com" "MATIC" 10 3 ]>
  (<[ 80001 := mkConfig
       [ "https://rpc-mumbai.maticvigil.com";
         "https://polygon-mumbai.gateway.tenderly.co";
         "https://polygon-mumbai.blockpi.network/v1/rpc/public" ]
       "https://mumbai.polygonscan.com" "tMATIC" 10 3 ]> ∅))))).

(** The RPC methods the manager calls on a provider. *)
Inductive Method : Type :=
| is_connected_m | get_block_m | chain_id_m | block_number_m | syncing_m.

(** What is observable of a call of [get_web3_provider] from outside: the
    requests sent to endpoints and the back-off sleeps, in order. *)
Inductive Event : Type :=
| Rpc (url : string) (m : Method)
| Sleep (seconds : Z).

(** What one endpoint answers at one moment.  [get_block_latest] answers
    [None] for Python's [None]; the second liveness check of an attempt
    (line 159) has an answer of its own. *)
Record NodeReply : Type := mkReply {
  is_connected : outcome bool;
  get_block_latest : outcome (option Z);
  chain_id : outcome Z;
  still_connected : outcome bool;
  block_number : outcome Z;
  syncing : outcome bool
}.

(** The endpoints are third-party services: their answers depend on the
    moment and on the URL, and on nothing the program controls. *)
Definition World : Type := nat -> string -> NodeReply.

(** A [Web3] object.  It is bound to one URL; [born] is the moment it was
    constructed, which tells two providers for one URL apart. *)
Record Provider : Type := mkProvider {
  url : string;
  born : nat
}.

(** The exceptions of [get_web3_provider]. *)
#[warnings="-register-all"]
Inductive error : Type :=
| UnsupportedNetwork (network_id : Z)                (* ValueError, line 99 *)
| BasicConnectionTestFailed                          (* line 141 *)
| NoLatestBlock                                      (* line 148 *)
| ChainIdMismatch (expected got : Z)                 (* line 153 *)
| HealthCheckFailed (cause : error)                  (* line 156 *)
| ProviderNotConnected                               (* line 160 *)
| NodeStillSyncing                                   (* line 168 *)
| Remote (msg : string)                              (* raised by web3 *)
| AllRpcsFailed (network_id : Z) (last_error : option error). (* line 190 *)

(** The module state: the dictionary [web3_providers], the current moment
    and the events so far. *)
Record State : Type := mkState {
  web3_providers : gmap Z Provider;
  moment : nat;
  trace : list Event
}.

Definition initial : State := mkState ∅ 0 [].

Definition log (e : Event) (st : State) : State :=
  mkState (web3_providers st) (moment st) (trace st ++ [e]).

Definition advance (st : State) : State :=
  mkState (web3_providers st) (S (moment st)) (trace st).

Definition cache (network_id : Z) (p : Provider) (st : State) : State :=
  mkState (<[network_id := p]> (web3_providers st)) (moment st) (trace st).

Definition evict (network_id : Z) (st : State) : State :=
  mkState (delete network_id (web3_providers st)) (moment st) (trace st).

(** Computations that read the world, change the state and may raise. *)
Definition M (A : Type) : Type := State -> (error + A) * State.

Definition ret {A} (a : A) : M A := fun st => (inr a, st).
Definition raise {A} (e : error) : M A := fun st => (inl e, st).
Definition bind {A B} (m : M A) (k : A -> M B) : M B :=
  fun st => match m st with
            | (inl e, st') => (inl e, st')
            | (inr a, st') => k a st'
            end.
Definition try_except {A} (m : M A) (handler : error -> M A) : M A :=
  fun st => match m st with
            | (inl e, st') => handler e st'
            | (inr a, st') => (inr a, st')
            end.

Notation "'do' x <- m ; k" := (bind m (fun x => k))
  (at level 10, x name, m at level 100, k at level 200).
Notation "'exec' m ; k" := (bind m (fun _ => k))
  (at level 10, m at level 100, k at level 200).

Section Manager.

Variable W : World.

(** A request of provider [p]: it is logged, and answered by the world at
    the current moment. *)
Definition rpc {A} (p : Provider) (m : Method) (answer : NodeReply -> outcome A) : M A :=
  fun st =>
    let st' := log (Rpc (url p) m) st in
    match answer (W (moment st) (url p)) with
    | Returns a => (inr a, st')
    | Raises msg => (inl (Remote msg), st')
    end.

(** The exception of [inject] when it is given no layer. *)
Definition layer_error : error := Remote "The layer for insertion must be an int.".

(** [w3.middleware_onion.inject(element, layer=...)] of web3 6.x, the
    version whose names the program uses: it requires an integer layer and
    raises [TypeError] without one; with [layer=0] it puts the element on
    the stack.  It sends nothing, and the stack is not part of a
    [Provider] here.  The program passes [layer=0] or no layer. *)
Definition inject (layer : option Z) : M unit :=
  match layer with
  | Some _ => ret tt
  | None => raise layer_error
  end.

(** [add_network_middlewares] (lines 106-113): the calls of lines 110 and
    113 give no layer. *)
Definition add_network_middlewares (network_id : Z) (p : Provider) : M unit :=
  if existsb (Z.eqb network_id) [1; 5]
  then inject (Some 0)
  else if existsb (Z.eqb network_id) [56; 97]
  then inject None
  else if existsb (Z.eqb network_id) [137; 80001]
  then exec inject (Some 0); inject None
  else ret tt.

(** The networks for which [add_network_middlewares] raises. *)
Definition layer_missing (network_id : Z) : bool :=
  existsb (Z.eqb network_id) [56; 97; 137; 80001].

(** The body of the [try] of lines 128-177: one attempt at one URL. *)
Definition connect_attempt (network_id : Z) (rpc_url : string) : M Provider :=
  fun st =>
    let provider := mkProvider rpc_url (moment st) in
    ( do connected <- rpc provider is_connected_m is_connected;
      exec (if negb connected then raise BasicConnectionTestFailed else ret tt);
      exec try_except
        ( do latest_block <- rpc provider get_block_m get_block_latest;
          exec (match latest_block with
                | None => raise NoLatestBlock
                | Some _ => ret tt
                end);
          do chain <- rpc provider chain_id_m chain_id;
          if negb (chain =? network_id)
          then raise (ChainIdMismatch network_id chain)
          else ret tt )
        (fun e => raise (HealthCheckFailed e));
      do connected' <- rpc provider is_connected_m still_connected;
      exec (if negb connected' then raise ProviderNotConnected else ret tt);
      exec rpc provider block_number_m block_number;
      exec try_except
        ( do s <- rpc provider syncing_m syncing;
          if s then raise NodeStillSyncing else ret tt )
        (fun _ => ret tt);
      exec add_network_middlewares network_id provider;
      exec (fun st' => (inr tt, cache network_id provider st'));
      ret provider ) st.

(** Python's [range(n)]. *)
Definition range (n : Z) : list Z := map Z.of_nat (seq 0 (Z.to_nat n)).

(** The inner loop, [for attempt in range(retry_count)], over what is left
    of the range.  [inl] is the [return] of line 177, [inr] the value of
    [last_error] when the loop runs out.  Time moves on after each
    attempt. *)
Fixpoint attempts_loop (network_id : Z) (retry : Z) (rpc_url : string)
    (attempts : list Z) (last_error : option error) (st : State)
    : (Provider + option error) * State :=
  match attempts with
  | [] => (inr last_error, st)
  | attempt :: attempts' =>
      match connect_attempt network_id rpc_url st with
      | (inr provider, st1) => (inl provider, advance st1)
      | (inl e, st1) =>
          let st2 :=
            if attempt <? retry - 1 then log (Sleep (1 * (attempt + 1))) st1 else st1 in
          attempts_loop network_id retry rpc_url attempts' (Some e) (advance st2)
      end
  end.

(** The outer loop, [for rpc_url in config['rpc_urls']]. *)
Fixpoint urls_loop (network_id : Z) (retry : Z) (urls : list string)
    (last_error : option error) (st : State)
    : (Provider + option error) * State :=
  match urls with
  | [] => (inr last_error, st)
  | rpc_url :: urls' =>
      match attempts_loop network_id retry rpc_url (range retry) last_error st with
      | (inl provider, st1) => (inl provider, st1)
      | (inr last_error', st1) => urls_loop network_id retry urls' last_error' st1
      end
  end.

(** Lines 115-122: the cached provider, if any, answers a liveness probe.
    [Some p] is the [return provider, True]; on [None] the function goes
    on to the endpoints.  Only an exception evicts the entry. *)
Definition cached_provider (network_id : Z) (force_new : bool) (st : State)
    : option Provider * State :=
  if force_new then (None, st)
  else
    match web3_providers st !! network_id with
    | None => (None, st)
    | Some provider =>
        match rpc provider is_connected_m is_connected st with
        | (inr true, st1) => (Some provider, advance st1)
        | (inr false, st1) => (None, advance st1)
        | (inl _, st1) => (None, advance (evict network_id st1))
        end
    end.

Section Configured.

Variable configs : gmap Z NetworkConfig.

(** [get_web3_provider(network_id, force_new)]. *)
Definition get_web3_provider (network_id : Z) (force_new : bool) : M (Provider * bool) :=
  fun st =>
    match configs !! network_id with
    | None => (inl (UnsupportedNetwork network_id), st)
    | Some config =>
        match cached_provider network_id force_new st with
        | (Some provider, st1) => (inr (provider, true), st1)
        | (None, st1) =>
            match urls_loop network_id (retry_count config) (rpc_urls config) None st1 with
            | (inl provider, st2) => (inr (provider, true), st2)
            | (inr last_error, st2) => (inl (AllRpcsFailed network_id last_error), st2)
            end
        end
    end.

(** The states the module can be in: it starts with an empty dictionary,
    [get_web3_provider] is the only function that writes to it, time
    passes between calls, and the callers send requests through the
    providers they were given. *)
Inductive reachable : State -> Prop :=
| reach_initial : reachable initial
| reach_wait st : reachable st -> reachable (advance st)
| reach_request st p m : reachable st -> reachable (log (Rpc (url p) m) st)
| reach_call st network_id force_new r st' :
    reachable st ->
    get_web3_provider network_id force_new st = (r, st') ->
    reachable st'.

End Configured.

(** The chain identifier a provider reported when its health check fetched
    it (line 151), i.e. at the moment the provider was made. *)
Definition reported_chain_id (p : Provider) : outcome Z :=
  chain_id (W (born p) (url p)).

(** The invariant of the dictionary: the provider stored under a chain
    identifier reported that identifier when it was checked. *)
Definition verified (st : State) : Prop :=
  forall k p, web3_providers st !! k = Some p -> reported_chain_id p = Returns k.

(** The requests of kind [m] sent to [u] in a trace. *)
Definition requests_to (u : string) (m : Method) (tr : list Event) : nat :=
  List.length
    (List.filter
       (fun e => match e with
                 | Rpc u' m' =>
                     String.eqb u u' &&
                     match m, m' with
                     | is_connected_m, is_connected_m
                     | get_block_m, get_block_m
                     | chain_id_m, chain_id_m
                     | block_number_m, block_number_m
                     | syncing_m, syncing_m => true
                     | _, _ => false
                     end
                 | Sleep _ => false
                 end) tr).

End Manager.

End Conn.

(* ===================================================================== *)
(** ** Text search: Python's [in] and the two regular expressions *)
(* ===================================================================== *)

Module Text.

(** Source text is a sequence of bytes (UTF-8).  The needles below are
    ASCII, and an ASCII byte never occurs inside the encoding of another
    character, so searching the bytes finds what Python finds in the
    [str]. *)

(** What is left of [s] after the literal [lit], when [s] starts with it. *)
Fixpoint strip_prefix (lit s : string) : option string :=
  match lit, s with
  | EmptyString, _ => Some s
  | String a lit', String b s' =>
      if Ascii.eqb a b then strip_prefix lit' s' else None
  | String _ _, EmptyString => None
  end.

(** [re.search] of a pattern that starts with the literal [lit] and goes on
    as [k]: the literal is tried at every position. *)
Fixpoint search_literal (lit : string) (k : string -> bool) (s : string) : bool :=
  match strip_prefix lit s with
  | Some rest => k rest
  | None => false
  end
  || match s with
     | EmptyString => false
     | String _ s' => search_literal lit k s'
     end.

(** [needle in s]. *)
Definition contains (needle s : string) : bool :=
  search_literal needle (fun _ => true) s.

Definition newline : ascii := "010"%char.
Definition dquote : ascii := "034"%char.

(** The regular expression [.*lit] followed by [k]: [.] matches every
    character but the newline (no [DOTALL] flag), and every length of the
    [.*] is tried. *)
Fixpoint dot_star_then (lit : string) (k : string -> bool) (s : string) : bool :=
  match strip_prefix lit s with
  | Some rest => k rest
  | None => false
  end
  || match s with
     | EmptyString => false
     | String c s' =>
         if Ascii.eqb c newline then false else dot_star_then lit k s'
     end.

Definition matched (_ : string) : bool := true.

(** A run that [.*] can match: no newline in it. *)
Fixpoint one_line (s : string) : bool :=
  match s with
  | EmptyString => true
  | String c s' => if Ascii.eqb c newline then false else one_line s'
  end.

(** [re.search(r'\.call\{.*\}\(".*"\)', s)]: the literal [.call{], any
    run, [}(] and a double quote, any run, a double quote and [)]. *)
Definition search_low_level_call (s : string) : bool :=
  search_literal ".call{"
    (dot_star_then (String "}" (String "(" (String dquote EmptyString)))
       (dot_star_then (String dquote (String ")" EmptyString)) matched)) s.

(** [re.search(r'require\(.*\.call', s)]. *)
Definition search_require_call (s : string) : bool :=
  search_literal "require(" (dot_star_then ".call" matched) s.

End Text.

(* ===================================================================== *)
(** ** Risk scoring ([ai-analyzer.py] lines 69-141, [security_scanner.py]) *)
(* ===================================================================== *)

Module Scanner.

Import Text.

(** An entry of a [vulnerabilities] list: a dictionary with the keys
    [type], [severity] and [description].  The entries the inference
    service sends are taken to have this shape too (section 6 of the
    specification); their values are whatever text the service chose.  On
    an entry without [type] line 201 raises [KeyError] and the scan
    returns nothing; such answers are not values of [CodeAnalysis]. *)
Record Finding : Type := mkFinding {
  type : string;
  severity : string;
  description : string
}.

(** The object decoded from the answer of the contract analysis: the keys
    the scanner looks at, each present or absent. *)
Record CodeAnalysis : Type := mkCodeAnalysis {
  ca_error : option string;
  ca_vulnerabilities : option (list Finding);
  ca_risk_score : option Q
}.

(** An entry of [suspicious_patterns]; both keys are read with [.get].
    The answers of the transaction analysis are taken to have this shape:
    [suspicious_patterns], when present, is a list of objects.  On an
    entry that is no object line 173 raises, outside any [try]; such
    answers are not values of [TransactionAnalysis]. *)
Record Pattern : Type := mkPattern {
  p_severity : option string;
  p_description : option string
}.

Record TransactionAnalysis : Type := mkTransactionAnalysis {
  ta_error : option string;
  ta_suspicious_patterns : option (list Pattern);
  ta_risk_score : option Q
}.

(** [analyze_smart_contract]: [client] is what the completion request and
    [json.loads] did.  The decorator in front of it only delays the call
    (see [RateLimit.wrapper]); lines 69 and 93 write it as
    [rate_limit(max_per_minute=50)], which is read here as the limiter
    declared for the function at lines 53-54. *)
Definition analyze_smart_contract (client : outcome CodeAnalysis) : CodeAnalysis :=
  match client with
  | Returns answer => answer
  | Raises e =>
      mkCodeAnalysis (Some ("AI analysis failed: " ++ e)%string) (Some []) (Some 1.0%Q)
  end.

(** [analyze_transaction_patterns] of [ai-analyzer.py]. *)
Definition analyze_transaction_patterns (client : outcome TransactionAnalysis)
    : TransactionAnalysis :=
  match client with
  | Returns answer => answer
  | Raises e =>
      mkTransactionAnalysis
        (Some ("Transaction analysis failed: " ++ e)%string) (Some []) (Some 0.5%Q)
  end.

(** [calculate_combined_risk_score]: the two analyses enter through their
    [risk_score] key (absent: [None]); [weights] is the dictionary passed,
    [None] for the default.  A missing weight is the [KeyError] that the
    [except] turns into 0.7. *)
Definition calculate_combined_risk_score
    (code_risk_score transaction_risk_score : option Q)
    (weights : option (gmap string Q)) : Q :=
  let weights :=
    match weights with
    | Some w => w
    | None =>
        <["code_analysis" := 0.6%Q]> (<["transaction_analysis" := 0.4%Q]> ∅)
    end in
  let code_score := default 0.5%Q code_risk_score in
  let transaction_score := default 0.5%Q transaction_risk_score in
  match weights !! "code_analysis", weights !! "transaction_analysis" with
  | Some wc, Some wt =>
      let combined_score := (code_score * wc + transaction_score * wt)%Q in
      Qmin 1.0 (Qmax 0.0 combined_score)
  | _, _ => 0.7%Q
  end.

(** [generate_recommendations]. *)
Fixpoint generate_recommendations (vulnerabilities : list Finding) : list string :=
  match vulnerabilities with
  | [] => []
  | vuln :: rest =>
      (if String.eqb (type vuln) "reentrancy"
       then ["Implement ReentrancyGuard or checks-effects-interactions pattern"]
       else if String.eqb (type vuln) "unchecked_return"
       then ["Add require() statements to check return values"]
       else if String.eqb (type vuln) "integer_overflow"
       then ["Use SafeMath library for arithmetic operations"]
       else if String.eqb (type vuln) "tx_origin"
       then ["Replace tx.origin with msg.sender"]
       else [])
      ++ generate_recommendations rest
  end.

(** The four findings of the static analysis. *)
Definition reentrancy : Finding :=
  mkFinding "reentrancy" "high" "Potential reentrancy vulnerability detected".
Definition unchecked_return : Finding :=
  mkFinding "unchecked_return" "medium" "Unchecked return value from low-level call".
Definition integer_overflow : Finding :=
  mkFinding "integer_overflow" "medium" "No SafeMath usage detected".
Definition tx_origin : Finding :=
  mkFinding "tx_origin" "high" "Dangerous tx.origin usage detected".

(** The conditions of the four [if]s of lines 88-123. *)
Definition has_reentrancy (source_code : string) : bool :=
  contains "call.value" source_code && negb (contains "ReentrancyGuard" source_code).
Definition has_unchecked_return (source_code : string) : bool :=
  search_low_level_call source_code && negb (search_require_call source_code).
Definition lacks_safemath (source_code : string) : bool :=
  negb (contains "SafeMath" source_code).
Definition has_tx_origin (source_code : string) : bool :=
  contains "tx.origin" source_code.

(** One of those [if]s: append the finding and add its increment. *)
Definition check (fires : bool) (finding : Finding) (increment : Q)
    (acc : list Finding * Q) : list Finding * Q :=
  if fires then (fst acc ++ [finding], (snd acc + increment)%Q) else acc.

(** Lines 84-123 of [analyze_contract]: the list [vulnerabilities] and the
    running [risk_score] as they stand before the inference call. *)
Definition static_analysis (source_code : string) : list Finding * Q :=
  let acc := ([], 0%Q) in
  let acc := check (has_reentrancy source_code) reentrancy 0.4 acc in
  let acc := check (has_unchecked_return source_code) unchecked_return 0.3 acc in
  let acc := check (lacks_safemath source_code) integer_overflow 0.2 acc in
  let acc := check (has_tx_origin source_code) tx_origin 0.4 acc in
  acc.

(** A row of the [Network] table. *)
Record Network : Type := mkNetwork {
  name : string;
  chain_id : Z
}.

(** Why [analyze_contract] gave up before analysing: the [error] key of the
    dictionaries of lines 12-57. *)
Inductive ScanError : Type :=
| InvalidNetwork
| CannotConnect (network : string)
| ChainMismatch (network : string) (expected got : Z)
| ChainUnverified (network : string) (cause : Conn.error)
| NetworkError (network : string) (cause : Conn.error).

(** The dictionary [analyze_contract] returns; [error] and
    [recommendations] are keys that can be absent. *)
Record ScanOutput : Type := mkScanOutput {
  error : option ScanError;
  vulnerabilities : list Finding;
  risk_score : Q;
  recommendations : option (list string)
}.

Definition refused (e : ScanError) (recommendations : option (list string)) : ScanOutput :=
  mkScanOutput (Some e) [] 1.0%Q recommendations.

(** Lines 84-138: the analysis proper, once the network is verified. *)
Definition inspect (client : outcome CodeAnalysis) (source_code : string) : ScanOutput :=
  let '(vulnerabilities, risk_score) := static_analysis source_code in
  let ai_analysis := analyze_smart_contract client in
  let '(vulnerabilities, risk_score) :=
    match ca_error ai_analysis with
    | None =>
        let ai_risk_score := default 0.5%Q (ca_risk_score ai_analysis) in
        (vulnerabilities ++ default [] (ca_vulnerabilities ai_analysis),
         (0.6 * ai_risk_score + 0.4 * Qmin risk_score 1.0)%Q)
    | Some _ => (vulnerabilities, risk_score)
    end in
  mkScanOutput None vulnerabilities (Qmin risk_score 1.0)
    (Some (generate_recommendations vulnerabilities)).

Section Scan.

Variable W : Conn.World.
Variable configs : gmap Z Conn.NetworkConfig.
(** [Network.query.get]. *)
Variable query_get : Z -> option Network.

(** Lines 18-57: get a provider and verify the chain.  [Some] is an early
    [return] of [analyze_contract]. *)
Definition verify_network (network : Network) (st : Conn.State)
    : option ScanOutput * Conn.State :=
  let network_error e :=
    refused (NetworkError (name network) e)
      (Some ["Verify network availability"; "Check RPC endpoint status"]) in
  let verify (w3 : Conn.Provider) (st : Conn.State) :=
    match Conn.rpc W w3 Conn.chain_id_m Conn.chain_id st with
    | (inl e, st') =>
        (Some (refused (ChainUnverified (name network) e)
                 (Some ["Check network connectivity"])),
         Conn.advance st')
    | (inr chain, st') =>
        if negb (chain =? chain_id network)
        then (Some (refused (ChainMismatch (name network) (chain_id network) chain)
                      (Some ["Verify network configuration"])),
              Conn.advance st')
        else (None, Conn.advance st')
    end in
  match Conn.get_web3_provider W configs (chain_id network) false st with
  | (inl e, st1) => (Some (network_error e), st1)
  | (inr (w3, true), st1) => verify w3 st1
  | (inr (_, false), st1) =>
      match Conn.get_web3_provider W configs (chain_id network) true st1 with
      | (inl e, st2) => (Some (network_error e), st2)
      | (inr (w3, true), st2) => verify w3 st2
      | (inr (_, false), st2) =>
          (Some (refused (CannotConnect (name network))
                   (Some ["Try again later or switch to a different network"])),
           st2)
      end
  end.

(** [analyze_contract(source_code, network_id)]. *)
Definition analyze_contract (client : outcome CodeAnalysis)
    (source_code : string) (network_id : Z) (st : Conn.State)
    : ScanOutput * Conn.State :=
  match query_get network_id with
  | None => (refused InvalidNetwork None, st)
  | Some network =>
      match verify_network network st with
      | (Some early, st') => (early, st')
      | (None, st') => (inspect client source_code, st')
      end
  end.

End Scan.

(** The [severity] of a wallet flag: the interaction check stores a number
    there, the inference patterns a text. *)
Inductive FlagSeverity : Type :=
| Score (q : Q)
| Label (s : string).

Record Flag : Type := mkFlag {
  flag_type : string;
  flag_severity : FlagSeverity;
  flag_description : string
}.

Record WalletOutput : Type := mkWalletOutput {
  address : string;
  wallet_risk_score : Q;
  flags : list Flag
}.

(** [check_contract_interactions]: a placeholder. *)
Definition check_contract_interactions (address : string) : Q := 0.0.

Definition ai_detected_pattern (pattern : Pattern) : Flag :=
  mkFlag "ai_detected_pattern"
    (Label (default "medium" (p_severity pattern)))
    (default "Suspicious pattern detected by AI" (p_description pattern)).

(** [check_wallet_safety(address, network_id)]; inside it
    [analyze_transaction_patterns] is the one imported from the analyzer. *)
Definition check_wallet_safety (client : outcome TransactionAnalysis)
    (address : string) (network_id : Z) : WalletOutput :=
  let flags : list Flag := [] in
  let risk_score := 0%Q in
  let interaction_risk := check_contract_interactions address in
  let '(flags, risk_score) :=
    if negb (Qle_bool interaction_risk 0)
    then (flags ++ [mkFlag "suspicious_interactions" (Score interaction_risk)
                      "Suspicious smart contract interactions detected"],
          (risk_score + interaction_risk)%Q)
    else (flags, risk_score) in
  let tx_analysis := analyze_transaction_patterns client in
  let '(flags, risk_score) :=
    match ta_error tx_analysis with
    | None =>
        let suspicious_patterns := default [] (ta_suspicious_patterns tx_analysis) in
        (flags ++ map ai_detected_pattern suspicious_patterns,
         calculate_combined_risk_score (Some risk_score) (ta_risk_score tx_analysis)
           (Some (<["code_analysis" := 0.4%Q]>
                    (<["transaction_analysis" := 0.6%Q]> ∅))))
    | Some _ => (flags, risk_score)
    end in
  mkWalletOutput address (Qmin risk_score 1.0) flags.

(** The clamp the specification speaks of. *)
Definition clamp01 (x : Q) : Q := Qmin 1 (Qmax 0 x).

End Scanner.

(* ===================================================================== *)
(** ** The arithmetic of [analyze_contract] in binary64 *)
(* ===================================================================== *)

Module Binary64.

(** Python's [min(x, y)] on two floats: [y] when [y < x], else [x]. *)
Definition fmin (x y : float) : float := if PrimFloat.ltb y x then y else x.

(** [risk_score += increment] under the [if] of one check. *)
Definition check (fires : bool) (increment risk_score : float) : float :=
  if fires then (risk_score + increment)%float else risk_score.

(** The running [risk_score] of lines 86-123.  Python starts from the
    integer 0, which the first addition or the product of line 132 turns
    into the float of the same value. *)
Definition static_score (source_code : string) : float :=
  let risk_score := 0%float in
  let risk_score := check (Scanner.has_reentrancy source_code) 0.4 risk_score in
  let risk_score := check (Scanner.has_unchecked_return source_code) 0.3 risk_score in
  let risk_score := check (Scanner.lacks_safemath source_code) 0.2 risk_score in
  let risk_score := check (Scanner.has_tx_origin source_code) 0.4 risk_score in
  risk_score.

(** Lines 130-136 for an answer without [error] key whose [risk_score] is
    the float [ai_risk_score]: the score that is returned. *)
Definition final_score (ai_risk_score : float) (source_code : string) : float :=
  let risk_score := static_score source_code in
  let risk_score := (0.6 * ai_risk_score + 0.4 * fmin risk_score 1.0)%float in
  fmin risk_score 1.0.

End Binary64.

(* ===================================================================== *)
(** ** Reports ([utils.py], [models.py], the [/analyze] route of [app.py]) *)
(* ===================================================================== *)

Module Report.

Import Scanner.

(** A row of [ScanResult]: the columns the report reads. *)
Record ScanResult : Type := mkScanResult {
  sr_vulnerabilities : list Finding;
  sr_risk_score : Q;
  sr_scan_date : Z
}.

(** The [/analyze] route (lines 361-381 of [app.py]): an output without
    the [error] key is stored as it is. *)
Definition store (out : ScanOutput) (scan_date : Z) : option ScanResult :=
  match error out with
  | Some _ => None
  | None => Some (mkScanResult (vulnerabilities out) (risk_score out) scan_date)
  end.

Record Summary : Type := mkSummary {
  total_vulnerabilities : nat;
  summary_risk_score : Q;
  severity_breakdown : gmap string nat;
  critical_findings : list Finding
}.

Record ReportDict : Type := mkReport {
  summary : Summary;
  details : list Finding;
  timestamp : Z
}.

(** The only exception [generate_report] raises by itself. *)
Inductive KeyError : Type := mkKeyError (key : string).

(** The loop of lines 20-21: [severity_counts[vuln['severity']] += 1]. *)
Fixpoint count_severities (vulnerabilities : list Finding)
    (severity_counts : gmap string nat) : KeyError + gmap string nat :=
  match vulnerabilities with
  | [] => inr severity_counts
  | vuln :: rest =>
      match severity_counts !! severity vuln with
      | None => inl (mkKeyError (severity vuln))
      | Some n => count_severities rest (<[severity vuln := S n]> severity_counts)
      end
  end.

(** [generate_report(scan_result)]; the formatting of the date
    ([isoformat]) is left out. *)
Definition generate_report (scan_result : ScanResult) : KeyError + ReportDict :=
  let vulnerabilities := sr_vulnerabilities scan_result in
  match count_severities vulnerabilities
          (<["high" := 0%nat]> (<["medium" := 0%nat]> (<["low" := 0%nat]> ∅))) with
  | inl e => inl e
  | inr severity_counts =>
      inr (mkReport
             (mkSummary (List.length vulnerabilities) (sr_risk_score scan_result)
                severity_counts
                (List.filter (fun v => String.eqb (severity v) "high") vulnerabilities))
             vulnerabilities
             (sr_scan_date scan_result))
  end.

(** The severities [severity_counts] has a key for. *)
Definition counted (s : string) : bool :=
  String.eqb s "high" || String.eqb s "medium" || String.eqb s "low".

End Report.

(* ===================================================================== *)
(** ** Upload names ([utils.py], lines 4-8) *)
(* ===================================================================== *)

Module Utils.

Definition ALLOWED_EXTENSIONS : gset string := {[ "sol"; "txt" ]}.

Definition dot : ascii := "."%char.

(** [str.lower] on one character: the letters [A] to [Z] go to [a] to [z].
    File names are byte strings here (UTF-8); Python also lowers letters
    outside ASCII, whose encodings have no ASCII byte before or after, so
    the comparison with [sol] and [txt] comes out the same. *)
Definition lower_char (c : ascii) : ascii :=
  let n := nat_of_ascii c in
  if (65 <=? n)%nat && (n <=? 90)%nat then ascii_of_nat (n + 32) else c.

Fixpoint lower (s : string) : string :=
  match s with
  | EmptyString => EmptyString
  | String c s' => String (lower_char c) (lower s')
  end.

(** The cut of [s.rsplit('.', 1)]: what stands before and after the last
    dot, when there is one. *)
Fixpoint last_dot (s : string) : option (string * string) :=
  match s with
  | EmptyString => None
  | String c s' =>
      match last_dot s' with
      | Some (before, after) => Some (String c before, after)
      | None => if Ascii.eqb c dot then Some (EmptyString, s') else None
      end
  end.

(** [s.rsplit('.', 1)]. *)
Definition rsplit_dot (s : string) : list string :=
  match last_dot s with
  | Some (before, after) => [before; after]
  | None => [s]
  end.

(** [allowed_file(filename)].  The index [[1]] is only evaluated behind the
    test for a dot, where the list has two elements. *)
Definition allowed_file (filename : string) : bool :=
  Text.contains "." filename &&
  match rsplit_dot filename with
  | [_; extension] => bool_decide (lower extension ∈ ALLOWED_EXTENSIONS)
  | _ => false
  end.

(** A text without a dot. *)
Fixpoint dotless (s : string) : bool :=
  match s with
  | EmptyString => true
  | String c s' => negb (Ascii.eqb c dot) && dotless s'
  end.

End Utils.

(* ===================================================================== *)
(** ** Quantities the further properties are stated with *)
(* ===================================================================== *)

Module Observed.

(** The instants at which [allow_request], called at each of [instants] in
    turn, answered [True]. *)
Fixpoint admitted (instants : list Z) (self : RateLimit.RateLimiter) : list Z :=
  match instants with
  | [] => []
  | now :: later =>
      let '(allowed, self') := RateLimit.allow_request now self in
      if allowed then now :: admitted later self' else admitted later self'
  end.

(** The seconds of back-off in a trace. *)
Fixpoint slept (tr : list Conn.Event) : Z :=
  match tr with
  | [] => 0
  | Conn.Sleep seconds :: tr' => seconds + slept tr'
  | Conn.Rpc _ _ :: tr' => slept tr'
  end.

(** The seconds of back-off that [attempts] failed attempts cost when
    [retry] attempts are allowed: line 181 lets every attempt but the last
    one sleep. *)
Fixpoint backoff (retry : Z) (attempts : list Z) : Z :=
  match attempts with
  | [] => 0
  | attempt :: attempts' =>
      (if attempt <? retry - 1 then 1 * (attempt + 1) else 0) + backoff retry attempts'
  end.

(** The requests in a trace. *)
Fixpoint requests_sent (tr : list Conn.Event) : nat :=
  match tr with
  | [] => 0
  | Conn.Sleep _ :: tr' => requests_sent tr'
  | Conn.Rpc _ _ :: tr' => S (requests_sent tr')
  end.

(** How often [severity] is the severity of a finding. *)
Definition with_severity (severity : string) (vulnerabilities : list Scanner.Finding)
    : nat :=
  List.length
    (List.filter (fun v => String.eqb (Scanner.severity v) severity) vulnerabilities).

(** The types [generate_recommendations] has an advice for. *)
Definition advised (type : string) : bool :=
  String.eqb type "reentrancy" || String.eqb type "unchecked_return" ||
  String.eqb type "integer_overflow" || String.eqb type "tx_origin".

End Observed.

(* ===================================================================== *)
(** ** Concrete inputs used by the examples *)
(* ===================================================================== *)

Module Scenarios.

Import Conn.

(** An endpoint in good health that serves chain [c]. *)
Definition healthy (c : Z) : NodeReply :=
  mkReply (Returns true) (Returns (Some 19000000)) (Returns c)
          (Returns true) (Returns 19000000) (Returns false).

(** Every endpoint is up and serves Ethereum mainnet. *)
Definition mainnet_up : World := fun _ _ => healthy 1.

(** As [mainnet_up], but the first endpoint configured for chain 1 is
    misconfigured and serves chain 56. *)
Definition first_endpoint_on_bsc : World :=
  fun _ u => if String.eqb u "https://eth.drpc.org" then healthy 56 else healthy 1.

(** The [Network] table as [init_networks] fills an empty database: six
    rows, numbered in the order of its list. *)
Definition networks (network_id : Z) : option Scanner.Network :=
  if network_id =? 1 then Some (Scanner.mkNetwork "Ethereum Mainnet" 1)
  else if network_id =? 2 then Some (Scanner.mkNetwork "BSC Mainnet" 56)
  else if network_id =? 3 then Some (Scanner.mkNetwork "Polygon" 137)
  else if network_id =? 4 then Some (Scanner.mkNetwork "Ethereum Goerli" 5)
  else if network_id =? 5 then Some (Scanner.mkNetwork "BSC Testnet" 97)
  else if network_id =? 6 then Some (Scanner.mkNetwork "Mumbai (Polygon Testnet)" 80001)
  else None.

(** A contract in which the four static checks fire. *)
Definition four_patterns : string :=
  ("a.call.value(1); tx.origin; b.call{value: 1}("
     ++ String Text.dquote (String Text.dquote ");"))%string.

(** A contract in which the reentrancy, overflow and origin checks fire. *)
Definition three_patterns : string := "msg.sender.call.value(1)(); tx.origin".

(** A contract in which no static check fires. *)
Definition clean : string := "using SafeMath for uint256;".

(** A hundred and one calls of a rate-limited function, one every
    millisecond, on a fresh limiter of 50 requests per 60 seconds. *)
Definition burst : RateLimit.Run :=
  RateLimit.run_calls (repeat 1000 101)
    (RateLimit.mkRun RateLimit.contract_limiter 0 []).

(** An answer of the inference service that reports one finding, rated
    [critical], and a score of 0.9. *)
Definition critical_answer : Scanner.CodeAnalysis :=
  Scanner.mkCodeAnalysis None
    (Some [Scanner.mkFinding "access_control" "critical" "Unprotected selfdestruct"])
    (Some 0.9%Q).

(** An endpoint that answers the liveness probe with [False]. *)
Definition down : NodeReply :=
  mkReply (Returns false) (Raises "unreachable") (Raises "unreachable")
          (Returns false) (Raises "unreachable") (Raises "unreachable").

(** No endpoint answers. *)
Definition all_down : World := fun _ _ => down.

(** Every endpoint serves mainnet at moment 0 and is down from then on. *)
Definition up_then_down : World :=
  fun t _ => match t with O => healthy 1 | S _ => down end.

(** Every endpoint is up and serves BSC mainnet. *)
Definition bsc_up : World := fun _ _ => healthy 56.

(** A configuration whose only network has no URL. *)
Definition no_endpoints : gmap Z NetworkConfig :=
  <[ 7 := mkConfig [] "https://explorer.example" "TST" 10 3 ]> ∅.

End Scenarios.

(* ===================================================================== *)
(** ** Statements of the specification that the code is checked against *)
(* ===================================================================== *)

Module Stated.

(** Section 4.3: [wait_time] answers 0 as long as the window is not
    full. *)
Definition zero_unless_full : Prop :=
  forall now self,
    Z.of_nat (RateLimit.in_window_count now self) < RateLimit.max_requests self ->
    RateLimit.wait_time now self = 0.

(** Section 4.1, step (4): an endpoint that reports another chain is not
    tried again in the same call, so a call asks it for its chain
    identifier at most once. *)
Definition hard_failure_on_mismatch : Prop :=
  forall (W : Conn.World) network_id force_new st r st' rpc_url c,
    c <> network_id ->
    (forall t, Conn.is_connected (W t rpc_url) = Returns true /\
               (exists b, Conn.get_block_latest (W t rpc_url) = Returns (Some b)) /\
               Conn.chain_id (W t rpc_url) = Returns c) ->
    Conn.get_web3_provider W Conn.NETWORK_CONFIGS network_id force_new st = (r, st') ->
    (Conn.requests_to rpc_url Conn.chain_id_m (Conn.trace st')
     <= Conn.requests_to rpc_url Conn.chain_id_m (Conn.trace st) + 1)%nat.

(** Section 4.2, step 4: when the inference call fails, its placeholder
    (score 1.0) enters the weighted combination of the final score. *)
Definition placeholder_is_combined : Prop :=
  forall W configs query_get e source_code network_id st out st',
    Scanner.analyze_contract W configs query_get (Raises e) source_code network_id st
    = (out, st') ->
    Scanner.error out = None ->
    (Scanner.risk_score out
     == Scanner.clamp01
          (0.6 * 1.0 + 0.4 * Qmin (snd (Scanner.static_analysis source_code)) 1.0))%Q.

(** Section 8: with local subtotal 1.3 and inference score 0.9 the final
    score is exactly 0.94. *)
Definition example_is_exactly_094 : Prop :=
  Binary64.final_score 0.9 Scenarios.four_patterns = 0.94%float.

(** Section 8: when the inference call fails during a wallet scan, the
    final score is 0.3. *)
Definition wallet_failure_scores_03 : Prop :=
  forall e address network_id,
    (Scanner.wallet_risk_score
       (Scanner.check_wallet_safety (Raises e) address network_id) == 0.3)%Q.

End Stated.

(* ===================================================================== *)
(** ** Proof steps shared by the sections below *)
(* ===================================================================== *)

(** Unfolds one attempt down to the answers of the world. *)
Ltac open_attempt :=
  unfold Conn.connect_attempt, Conn.bind, Conn.try_except, Conn.rpc, Conn.raise,
    Conn.ret, Conn.log, Conn.cache.

(** Reduces what an answer of the world decided, and nothing else. *)
Ltac reduce :=
  cbn beta iota zeta delta
    [negb fst snd Conn.moment Conn.web3_providers Conn.trace Conn.url Conn.born].

(** Closes a branch in which the attempt has produced its result. *)
Ltac settle :=
  let H := fresh in
  intros H; inversion H; subst; reduce; repeat split; auto.

(* ===================================================================== *)
(** ** Properties of the rate limiter *)
(* ===================================================================== *)

Module RateLimitFacts.

Import RateLimit.

Lemma list_min_le_init xs : forall x, list_min x xs <= x.
Proof.
  unfold list_min. induction xs as [|y ys IH]; intros x; simpl; [lia|].
  specialize (IH (Z.min x y)). lia.
Qed.

Lemma list_min_lower xs : forall x y, In y (x :: xs) -> list_min x xs <= y.
Proof.
  induction xs as [|z zs IH]; intros x y Hin.
  - destruct Hin as [<-|[]]. unfold list_min; simpl; lia.
  - change (list_min x (z :: zs)) with (list_min (Z.min x z) zs).
    destruct Hin as [<-|[<-|Hin]].
    + pose proof (list_min_le_init zs (Z.min x z)). lia.
    + pose proof (list_min_le_init zs (Z.min x z)). lia.
    + apply IH. right. exact Hin.
Qed.

Lemma list_min_In xs : forall x, In (list_min x xs) (x :: xs).
Proof.
  induction xs as [|z zs IH]; intros x.
  - left. reflexivity.
  - change (list_min x (z :: zs)) with (list_min (Z.min x z) zs).
    destruct (IH (Z.min x z)) as [H|H].
    + rewrite <- H. destruct (Z.min_spec x z) as [[_ ->]|[_ ->]]; simpl; auto.
    + right. right. exact H.
Qed.

(** [wait_time] in closed form. *)
Lemma wait_time_cons now self r rs :
  requests self = r :: rs ->
  wait_time now self
  = Z.max 0 (list_min r rs + timedelta_seconds (time_window self) - now).
Proof.
  intros Hreq. unfold wait_time. rewrite Hreq. cbv zeta.
  rewrite Z.geb_leb.
  destruct (Z.leb_spec (list_min r rs + timedelta_seconds (time_window self)) now); lia.
Qed.

Lemma wait_time_nonneg now self : 0 <= wait_time now self.
Proof.
  destruct (requests self) as [|r rs] eqn:Hreq.
  - unfold wait_time. rewrite Hreq. lia.
  - rewrite (wait_time_cons _ _ _ _ Hreq). lia.
Qed.

(** What [allow_request] leaves behind when it refuses. *)
Lemma allow_request_denied now self self' :
  allow_request now self = (false, self') ->
  max_requests self' = max_requests self /\
  time_window self' = time_window self /\
  requests self'
  = List.filter (fun t => now - t <? timedelta_seconds (time_window self)) (requests self) /\
  max_requests self <= Z.of_nat (List.length (requests self')).
Proof.
  unfold allow_request. rewrite Z.geb_leb.
  destruct (Z.leb_spec (max_requests self)
              (Z.of_nat (List.length
                 (List.filter (fun t => now - t <? timedelta_seconds (time_window self))
                    (requests self))))) as [Hle|Hlt];
    intros Heq; inversion Heq; subst; simpl; auto.
Qed.

Lemma filter_idem {A} (f : A -> bool) (l : list A) :
  List.filter f (List.filter f l) = List.filter f l.
Proof.
  induction l as [|a l IH]; simpl; [reflexivity|].
  destruct (f a) eqn:Hfa; simpl; [rewrite Hfa, IH|]; auto.
Qed.

(** No call is dropped: every call of the wrapper enters the function. *)
Lemma wrapper_initiates st :
  List.length (initiated (wrapper st)) = S (List.length (initiated st)).
Proof.
  unfold wrapper. destruct (allow_request (clock st) (limiter st)) as [ok lim].
  simpl. rewrite List.length_app. simpl. lia.
Qed.

Lemma run_calls_initiates_all gaps : forall st,
  List.length (initiated (run_calls gaps st))
  = (List.length (initiated st) + List.length gaps)%nat.
Proof.
  induction gaps as [|g gaps IH]; intros st; simpl; [lia|].
  rewrite IH, wrapper_initiates. simpl. lia.
Qed.

(** C8, as stated, fails: with one request recorded at instant 0 and room
    for 50, ten seconds later the window holds 1 of 50 requests and
    [wait_time] answers 50 seconds. *)
Lemma wait_time_ignores_fullness : ~ Stated.zero_unless_full.
Proof.
  intros H.
  specialize (H 10000000 (mkLimiter 50 60 [0])).
  assert (Hw : wait_time 10000000 (mkLimiter 50 60 [0]) = 50000000) by reflexivity.
  rewrite Hw in H. discriminate H. reflexivity.
Qed.

(** C8, amended: [wait_time] is 0 when nothing is recorded; otherwise it is
    the time left until the oldest recorded instant is [time_window] old,
    and 0 from then on, whatever the number of recorded instants.  It never
    increases as time passes without new requests.  After a refusal of
    [allow_request] by a limiter whose [max_requests] is positive (the
    state in which the wrapper asks) the window is full, the oldest
    recorded instant lies inside it, and [wait_time], read at the instant
    of the refusal or later, is the time left until that instant leaves
    the window: positive until then, 0 afterwards.  A limiter whose
    [max_requests] is not positive refuses as well, but with nothing
    recorded its [wait_time] is 0. *)
Theorem wait_time_oldest_recorded now self :
  (requests self = [] -> wait_time now self = 0) /\
  (forall r rs, requests self = r :: rs ->
     let oldest := list_min r rs in
     In oldest (requests self) /\
     (forall t, In t (requests self) -> oldest <= t) /\
     wait_time now self
     = Z.max 0 (oldest + timedelta_seconds (time_window self) - now) /\
     (oldest + timedelta_seconds (time_window self) <= now -> wait_time now self = 0)) /\
  (forall later, now <= later -> wait_time later self <= wait_time now self) /\
  (forall refused later, 0 < max_requests self ->
     allow_request now self = (false, refused) ->
     now <= later ->
     max_requests refused <= Z.of_nat (in_window_count now refused) /\
     0 < wait_time now refused /\
     exists oldest, In oldest (requests refused) /\
       (forall t, In t (requests refused) -> oldest <= t) /\
       now - oldest < timedelta_seconds (time_window refused) /\
       wait_time now refused
       = oldest + timedelta_seconds (time_window refused) - now /\
       wait_time later refused
       = Z.max 0 (oldest + timedelta_seconds (time_window refused) - later) /\
       (later < oldest + timedelta_seconds (time_window refused) ->
        0 < wait_time later refused) /\
       (oldest + timedelta_seconds (time_window refused) <= later ->
        wait_time later refused = 0)) /\
  (forall later, max_requests self <= 0 -> requests self = [] ->
     allow_request now self = (false, self) /\ wait_time later self = 0).
Proof.
  split; [|split; [|split; [|split]]].
  - intros Hreq. unfold wait_time. rewrite Hreq. reflexivity.
  - intros r rs Hreq oldest. subst oldest. rewrite Hreq.
    repeat split.
    + apply list_min_In.
    + intros t Ht. apply list_min_lower. exact Ht.
    + apply wait_time_cons. exact Hreq.
    + intros Hold. rewrite (wait_time_cons _ _ _ _ Hreq). lia.
  - intros later Hlater.
    destruct (requests self) as [|r rs] eqn:Hreq.
    + unfold wait_time. rewrite Hreq. lia.
    + rewrite !(wait_time_cons _ _ _ _ Hreq). lia.
  - intros refused later Hmax Hdeny Hlater.
    destruct (allow_request_denied _ _ _ Hdeny) as (Hm & Hw & Hreq & Hfull).
    assert (Hcount : in_window_count now refused = List.length (requests refused)).
    { unfold in_window_count. rewrite Hw, Hreq, filter_idem. reflexivity. }
    destruct (requests refused) as [|r rs] eqn:Hreq'.
    { simpl in Hfull. lia. }
    assert (Hin : In (list_min r rs) (List.filter
              (fun t => now - t <? timedelta_seconds (time_window self)) (requests self))).
    { rewrite <- Hreq. apply list_min_In. }
    apply List.filter_In in Hin. destruct Hin as [_ Hfresh].
    apply Z.ltb_lt in Hfresh.
    pose proof (wait_time_cons now _ _ _ Hreq') as Hnow.
    pose proof (wait_time_cons later _ _ _ Hreq') as Hthen.
    rewrite Hw in *.
    split; [rewrite Hcount, Hm; simpl; exact Hfull|].
    split; [lia|].
    exists (list_min r rs). split; [apply list_min_In|].
    split; [intros t Ht; apply list_min_lower; exact Ht|].
    repeat split; lia.
  - intros later Hmax Hempty. split.
    + unfold allow_request. rewrite Hempty. simpl. change (Z.of_nat 0) with 0.
      destruct (Z.geb_spec 0 (max_requests self)); [|lia].
      destruct self as [m w r]. simpl in *. subst r. reflexivity.
    + unfold wait_time. rewrite Hempty. reflexivity.
Qed.

(** The amended statement at a full window: 50 requests at the instants
    0, 1, ..., 49 ms; at 50 ms the 51st is refused and has to wait until
    the first one is 60 s old; a second later 58.95 s are left. *)
Lemma wait_time_oldest_recorded_witness :
  let full := mkLimiter 50 60 (map (fun k => Z.of_nat k * 1000) (seq 0 50)) in
  0 < max_requests full /\
  allow_request 50000 full = (false, full) /\
  max_requests full <= Z.of_nat (in_window_count 50000 full) /\
  0 < wait_time 50000 full /\
  0 < wait_time 1050000 full.
Proof.
  intros full.
  assert (Hmax : 0 < max_requests full) by reflexivity.
  assert (Hdeny : allow_request 50000 full = (false, full)) by reflexivity.
  assert (Hlater : 50000 <= 1050000) by lia.
  split; [exact Hmax|]. split; [exact Hdeny|].
  destruct (wait_time_oldest_recorded 50000 full) as (_ & _ & _ & Hfull & _).
  destruct (Hfull full 1050000 Hmax Hdeny Hlater)
    as (Hcount & Hpos & oldest & _ & _ & Hfresh & Hnow & _ & Hleft & _).
  split; [exact Hcount|]. split; [exact Hpos|].
  apply Hleft.
  assert (Hvalue : wait_time 50000 full = 59950000) by reflexivity.
  rewrite Hvalue in Hnow. change (timedelta_seconds (time_window full)) with 60000000 in *.
  lia.
Defined.

(** A call that [allow_request] refuses is entered all the same, after the
    sleep, and the limiter keeps no record of it. *)
Lemma wrapper_refused_unrecorded st lim :
  allow_request (clock st) (limiter st) = (false, lim) ->
  limiter (wrapper st) = lim /\
  requests lim
  = List.filter
      (fun t => clock st - t <? timedelta_seconds (time_window (limiter st)))
      (requests (limiter st)) /\
  initiated (wrapper st) = initiated st ++ [clock st + wait_time (clock st) lim].
Proof.
  intros Hdeny. unfold wrapper. rewrite Hdeny. simpl.
  destruct (allow_request_denied _ _ _ Hdeny) as (_ & _ & Hreq & _).
  split; [reflexivity|]. split; [exact Hreq|].
  pose proof (wait_time_nonneg (clock st) lim) as Hw.
  destruct (Z.ltb_spec 0 (wait_time (clock st) lim)); [reflexivity|].
  replace (wait_time (clock st) lim) with 0 by lia.
  rewrite Z.add_0_r. reflexivity.
Qed.

(** C7 at a failing input.  A hundred and one calls, one per millisecond:
    the 51st is held back until the first is 60 s old, but it is not
    recorded, and the fifty calls after it are all admitted at once.  In
    the 60 seconds that end with the last call 51 calls were entered, one
    more than [max_requests]. *)
Theorem wrapper_overruns_window :
  let calls := initiated Scenarios.burst in
  max_requests contract_limiter = 50 /\
  time_window contract_limiter = 60 /\
  List.length calls = 101%nat /\
  nth 0 calls 0 = 1000 /\
  nth 50 calls 0 = 1000 + timedelta_seconds 60 /\
  nth 100 calls 0 = 60051000 /\
  initiated_in_window (timedelta_seconds 60) 60051000 calls = 51%nat.
Proof.
  vm_compute. repeat split; reflexivity.
Qed.

End RateLimitFacts.


(* ===================================================================== *)
(** ** What the text searches find *)
(* ===================================================================== *)

Module TextFacts.

Import Text.

Open Scope string_scope.

Lemma strip_prefix_spec lit : forall s rest,
  strip_prefix lit s = Some rest <-> s = lit ++ rest.
Proof.
  induction lit as [|a lit IH]; intros s rest; simpl.
  - split; intros H; [inversion H|subst]; reflexivity.
  - destruct s as [|b s].
    + split; intros H; discriminate H.
    + destruct (Ascii.eqb_spec a b) as [->|Hne].
      * rewrite IH. split; intros H; [subst|inversion H]; reflexivity.
      * split; intros H; [discriminate H|]. inversion H. congruence.
Qed.

(** [search_literal] finds the literal at some position and hands what
    follows it to the rest of the pattern. *)
Lemma search_literal_spec lit k s :
  search_literal lit k s = true
  <-> exists before rest, s = before ++ lit ++ rest /\ k rest = true.
Proof.
  induction s as [|c s IH]; simpl.
  - rewrite orb_false_r. split.
    + destruct (strip_prefix lit EmptyString) as [rest|] eqn:Hstrip; [|discriminate].
      intros Hk. apply (strip_prefix_spec lit) in Hstrip.
      exists EmptyString, rest. split; assumption.
    + intros (before & rest & Heq & Hk).
      destruct before; [|discriminate Heq]. simpl in Heq.
      apply (strip_prefix_spec lit) in Heq. rewrite Heq. exact Hk.
  - rewrite orb_true_iff, IH. split.
    + intros [Hhere|(before & rest & Heq & Hk)].
      * destruct (strip_prefix lit (String c s)) as [rest|] eqn:Hstrip; [|discriminate].
        apply (strip_prefix_spec lit) in Hstrip.
        exists EmptyString, rest. split; assumption.
      * exists (String c before), rest. simpl. rewrite Heq. split; [reflexivity|exact Hk].
    + intros (before & rest & Heq & Hk).
      destruct before as [|c' before]; simpl in Heq.
      * left. apply (strip_prefix_spec lit) in Heq. rewrite Heq. exact Hk.
      * right. inversion Heq; subst. exists before, rest. split; [reflexivity|exact Hk].
Qed.

(** [contains] is Python's [in]: the needle is a substring. *)
Lemma contains_spec needle s :
  contains needle s = true <-> exists before after, s = before ++ needle ++ after.
Proof.
  unfold contains. rewrite search_literal_spec.
  split; [intros (b & r & H & _)|intros (b & r & H)]; exists b, r; auto.
Qed.

(** [dot_star_then] skips a run without newline, then finds the literal. *)
Lemma dot_star_then_spec lit k s :
  dot_star_then lit k s = true
  <-> exists run rest, s = run ++ lit ++ rest /\ one_line run = true /\ k rest = true.
Proof.
  induction s as [|c s IH]; simpl.
  - rewrite orb_false_r. split.
    + destruct (strip_prefix lit EmptyString) as [rest|] eqn:Hstrip; [|discriminate].
      intros Hk. apply (strip_prefix_spec lit) in Hstrip.
      exists EmptyString, rest. repeat split; assumption.
    + intros (run & rest & Heq & _ & Hk).
      destruct run; [|discriminate Heq]. simpl in Heq.
      apply (strip_prefix_spec lit) in Heq. rewrite Heq. exact Hk.
  - rewrite orb_true_iff. split.
    + intros [Hhere|Hlater].
      * destruct (strip_prefix lit (String c s)) as [rest|] eqn:Hstrip; [|discriminate].
        apply (strip_prefix_spec lit) in Hstrip.
        exists EmptyString, rest. repeat split; assumption.
      * destruct (Ascii.eqb c newline) eqn:Hc; [discriminate|].
        apply IH in Hlater. destruct Hlater as (run & rest & Heq & Hrun & Hk).
        exists (String c run), rest. simpl. rewrite Heq, Hc. repeat split; assumption.
    + intros (run & rest & Heq & Hrun & Hk).
      destruct run as [|c' run]; simpl in Heq.
      * left. apply (strip_prefix_spec lit) in Heq. rewrite Heq. exact Hk.
      * right. inversion Heq; subst. simpl in Hrun.
        destruct (Ascii.eqb c' newline); [discriminate|].
        apply IH. exists run, rest. repeat split; assumption.
Qed.

(** The first regular expression of the unchecked-return check. *)
Lemma search_low_level_call_spec s :
  search_low_level_call s = true
  <-> exists before options arguments after,
        s = before ++ ".call{" ++ options
              ++ String "}" (String "(" (String dquote EmptyString)) ++ arguments
              ++ String dquote (String ")" EmptyString) ++ after /\
        one_line options = true /\ one_line arguments = true.
Proof.
  unfold search_low_level_call. rewrite search_literal_spec. split.
  - intros (before & rest & Heq & Hrest).
    apply dot_star_then_spec in Hrest.
    destruct Hrest as (options & rest' & Heq' & Hopt & Hrest').
    apply dot_star_then_spec in Hrest'.
    destruct Hrest' as (arguments & after & Heq'' & Harg & _).
    exists before, options, arguments, after. subst. repeat split; assumption.
  - intros (before & options & arguments & after & Heq & Hopt & Harg).
    eexists before, _. split; [exact Heq|].
    apply dot_star_then_spec. eexists options, _. split; [reflexivity|].
    split; [exact Hopt|].
    apply dot_star_then_spec. exists arguments, after. repeat split; assumption.
Qed.

(** The second one. *)
Lemma search_require_call_spec s :
  search_require_call s = true
  <-> exists before between after,
        s = before ++ "require(" ++ between ++ ".call" ++ after /\
        one_line between = true.
Proof.
  unfold search_require_call. rewrite search_literal_spec. split.
  - intros (before & rest & Heq & Hrest).
    apply dot_star_then_spec in Hrest.
    destruct Hrest as (between & after & Heq' & Hline & _).
    exists before, between, after. subst. split; [reflexivity|exact Hline].
  - intros (before & between & after & Heq & Hline).
    eexists before, _. split; [exact Heq|].
    apply dot_star_then_spec. exists between, after. repeat split; assumption.
Qed.

End TextFacts.

(* ===================================================================== *)
(** ** Properties of the connection manager *)
(* ===================================================================== *)

Module ConnFacts.

Import Conn.

(** What [add_network_middlewares] does: nothing to the state, and it
    raises exactly for the four networks whose branch calls [inject]
    without a layer. *)
Lemma add_network_middlewares_outcome network_id p st :
  add_network_middlewares network_id p st
  = (if layer_missing network_id then inl layer_error else inr tt, st).
Proof.
  unfold add_network_middlewares, layer_missing, inject, bind, raise, ret. simpl.
  destruct (Z.eqb_spec network_id 1), (Z.eqb_spec network_id 5),
    (Z.eqb_spec network_id 56), (Z.eqb_spec network_id 97),
    (Z.eqb_spec network_id 137), (Z.eqb_spec network_id 80001);
    subst; simpl; try reflexivity; discriminate.
Qed.

Section Facts.

Variable W : World.

(** A successful attempt made a provider for the URL at the current moment,
    saw it report the requested chain, and stored it. *)
Lemma connect_attempt_returns network_id rpc_url st p st1 :
  connect_attempt W network_id rpc_url st = (inr p, st1) ->
  p = mkProvider rpc_url (moment st) /\
  chain_id (W (moment st) rpc_url) = Returns network_id /\
  web3_providers st1 = <[network_id := p]> (web3_providers st) /\
  moment st1 = moment st.
Proof.
  open_attempt. reduce.
  destruct (is_connected (W (moment st) rpc_url)) as [[|]|]; reduce; try discriminate.
  destruct (get_block_latest (W (moment st) rpc_url)) as [[b|]|]; reduce; try discriminate.
  destruct (chain_id (W (moment st) rpc_url)) as [c|]; reduce; try discriminate.
  destruct (Z.eqb_spec c network_id) as [->|Hne]; reduce; try discriminate.
  destruct (still_connected (W (moment st) rpc_url)) as [[|]|]; reduce; try discriminate.
  destruct (block_number (W (moment st) rpc_url)) as [n|]; reduce; try discriminate.
  destruct (syncing (W (moment st) rpc_url)) as [[|]|]; reduce;
    rewrite add_network_middlewares_outcome;
    destruct (layer_missing network_id); reduce; settle.
Qed.

(** A failed attempt leaves the dictionary and the clock alone. *)
Lemma connect_attempt_raises network_id rpc_url st e st1 :
  connect_attempt W network_id rpc_url st = (inl e, st1) ->
  web3_providers st1 = web3_providers st /\ moment st1 = moment st.
Proof.
  open_attempt. reduce.
  destruct (is_connected (W (moment st) rpc_url)) as [[|]|]; reduce; try (settle; fail).
  destruct (get_block_latest (W (moment st) rpc_url)) as [[b|]|]; reduce; try (settle; fail).
  destruct (chain_id (W (moment st) rpc_url)) as [c|]; reduce; try (settle; fail).
  destruct (Z.eqb_spec c network_id) as [->|Hne]; reduce; try (settle; fail).
  destruct (still_connected (W (moment st) rpc_url)) as [[|]|]; reduce; try (settle; fail).
  destruct (block_number (W (moment st) rpc_url)) as [n|]; reduce; try (settle; fail).
  destruct (syncing (W (moment st) rpc_url)) as [[|]|]; reduce;
    rewrite add_network_middlewares_outcome;
    destruct (layer_missing network_id); reduce; settle.
Qed.

Lemma verified_same_dictionary st st' :
  web3_providers st' = web3_providers st -> verified W st -> verified W st'.
Proof. intros Heq Hv k p. rewrite Heq. apply Hv. Qed.

Lemma verified_initial : verified W initial.
Proof. intros k p. simpl. rewrite lookup_empty. discriminate. Qed.

Lemma attempts_loop_verified network_id retry rpc_url attempts :
  forall last_error st r st',
    verified W st ->
    attempts_loop W network_id retry rpc_url attempts last_error st = (r, st') ->
    verified W st' /\
    (forall p, r = inl p -> reported_chain_id W p = Returns network_id).
Proof.
  induction attempts as [|attempt attempts IH]; intros last_error st r st' Hv; simpl.
  - intros H. inversion H; subst. split; [exact Hv|]. intros p Hp. discriminate Hp.
  - destruct (connect_attempt W network_id rpc_url st) as [[e|p] st1] eqn:Hatt.
    + destruct (connect_attempt_raises _ _ _ _ _ Hatt) as [Hsame _].
      apply IH. eapply verified_same_dictionary; [|exact Hv].
      destruct (attempt <? retry - 1); simpl; exact Hsame.
    + destruct (connect_attempt_returns _ _ _ _ _ Hatt) as (Hp & Hchain & Hins & _).
      intros H. inversion H; subst r st'. clear H.
      assert (Hrep : reported_chain_id W p = Returns network_id).
      { rewrite Hp. unfold reported_chain_id. simpl. exact Hchain. }
      split.
      * intros k q. simpl. rewrite Hins. rewrite lookup_insert.
        destruct (decide (network_id = k)) as [->|Hne].
        -- intros Hq. inversion Hq; subst q. exact Hrep.
        -- apply Hv.
      * intros q Hq. inversion Hq; subst q. exact Hrep.
Qed.

Lemma urls_loop_verified network_id retry urls :
  forall last_error st r st',
    verified W st ->
    urls_loop W network_id retry urls last_error st = (r, st') ->
    verified W st' /\
    (forall p, r = inl p -> reported_chain_id W p = Returns network_id).
Proof.
  induction urls as [|rpc_url urls IH]; intros last_error st r st' Hv; simpl.
  - intros H. inversion H; subst. split; [exact Hv|]. intros p Hp. discriminate Hp.
  - destruct (attempts_loop W network_id retry rpc_url (range retry) last_error st)
      as [[p|last_error'] st1] eqn:Hloop.
    + intros H. inversion H; subst r st'.
      eapply attempts_loop_verified; eassumption.
    + apply IH.
      eapply attempts_loop_verified; eassumption.
Qed.

Lemma cached_provider_verified network_id force_new st o st' :
  verified W st ->
  cached_provider W network_id force_new st = (o, st') ->
  verified W st' /\
  (forall p, o = Some p -> reported_chain_id W p = Returns network_id).
Proof.
  intros Hv. unfold cached_provider.
  destruct force_new.
  { intros H. inversion H; subst. split; [exact Hv|discriminate]. }
  destruct (web3_providers st !! network_id) as [provider|] eqn:Hlook.
  2:{ intros H. inversion H; subst. split; [exact Hv|discriminate]. }
  unfold rpc.
  destruct (is_connected (W (moment st) (url provider))) as [[|]|];
    intros H; inversion H; subst o st'; clear H.
  - split; [eapply verified_same_dictionary; [|exact Hv]; reflexivity|].
    intros p Hp. inversion Hp; subst p. apply Hv. exact Hlook.
  - split; [eapply verified_same_dictionary; [|exact Hv]; reflexivity|discriminate].
  - split; [|discriminate].
    intros k p. simpl. rewrite lookup_delete.
    destruct (decide (network_id = k)); [discriminate|apply Hv].
Qed.

Section Configured.

Variable configs : gmap Z NetworkConfig.

Lemma get_web3_provider_verified network_id force_new st r st' :
  verified W st ->
  get_web3_provider W configs network_id force_new st = (r, st') ->
  verified W st' /\
  (forall p ok, r = inr (p, ok) ->
     ok = true /\ reported_chain_id W p = Returns network_id).
Proof.
  intros Hv. unfold get_web3_provider.
  destruct (configs !! network_id) as [config|].
  2:{ intros H. inversion H; subst. split; [exact Hv|discriminate]. }
  destruct (cached_provider W network_id force_new st) as [[provider|] st1] eqn:Hcached.
  - destruct (cached_provider_verified _ _ _ _ _ Hv Hcached) as [Hv1 Hrep].
    intros H. inversion H; subst r st'. split; [exact Hv1|].
    intros p ok Hp. inversion Hp; subst. split; [reflexivity|]. apply Hrep. reflexivity.
  - destruct (cached_provider_verified _ _ _ _ _ Hv Hcached) as [Hv1 _].
    destruct (urls_loop W network_id (retry_count config) (rpc_urls config) None st1)
      as [[provider|last_error] st2] eqn:Hloop.
    + destruct (urls_loop_verified _ _ _ _ _ _ _ Hv1 Hloop) as [Hv2 Hrep].
      intros H. inversion H; subst r st'. split; [exact Hv2|].
      intros p ok Hp. inversion Hp; subst. split; [reflexivity|]. apply Hrep. reflexivity.
    + destruct (urls_loop_verified _ _ _ _ _ _ _ Hv1 Hloop) as [Hv2 _].
      intros H. inversion H; subst r st'. split; [exact Hv2|discriminate].
Qed.

Lemma reachable_verified st : reachable W configs st -> verified W st.
Proof.
  induction 1 as [|st Hreach IH|st p m Hreach IH
                  |st network_id force_new r st' Hreach IH Hcall].
  - apply verified_initial.
  - eapply verified_same_dictionary; [|exact IH]. reflexivity.
  - eapply verified_same_dictionary; [|exact IH]. reflexivity.
  - eapply get_web3_provider_verified; eassumption.
Qed.

(** C1.  In every state the module can reach, a call of
    [get_web3_provider] that returns a provider returns it with [True] and
    the provider is one that reported the requested chain identifier when
    it was checked: on the fresh path it was checked in this call, on the
    cached path in the call that stored it under this identifier. *)
Theorem acquire_reports_requested_chain network_id force_new st p ok st' :
  reachable W configs st ->
  get_web3_provider W configs network_id force_new st = (inr (p, ok), st') ->
  ok = true /\ reported_chain_id W p = Returns network_id.
Proof.
  intros Hreach Hcall.
  apply reachable_verified in Hreach.
  destruct (get_web3_provider_verified _ _ _ _ _ Hreach Hcall) as [_ Hrep].
  apply Hrep. reflexivity.
Qed.

(** C5.  For a chain identifier that is not a key of the configuration,
    [get_web3_provider] raises the unsupported-network error at once: the
    state is the one it was called in, so nothing was sent to any endpoint,
    nothing was waited for and the dictionary is untouched. *)
Theorem unknown_network_rejected network_id force_new st :
  configs !! network_id = None ->
  get_web3_provider W configs network_id force_new st
  = (inl (UnsupportedNetwork network_id), st) /\
  (forall r st', get_web3_provider W configs network_id force_new st = (r, st') ->
     trace st' = trace st /\ web3_providers st' = web3_providers st).
Proof.
  intros Hnone. unfold get_web3_provider. rewrite Hnone.
  split; [reflexivity|].
  intros r st' H. inversion H; subst. split; reflexivity.
Qed.

End Configured.

End Facts.

(** C1 at work: a first call for chain 1 connects and stores the provider,
    a second call is answered from the dictionary. *)
Lemma acquire_reports_requested_chain_witness :
  let W := Scenarios.mainnet_up in
  let st := snd (get_web3_provider W NETWORK_CONFIGS 1 false initial) in
  let p := mkProvider "https://eth.drpc.org" 0 in
  reachable W NETWORK_CONFIGS st /\
  fst (get_web3_provider W NETWORK_CONFIGS 1 false st) = inr (p, true) /\
  reported_chain_id W p = Returns 1.
Proof.
  intros W st p.
  assert (Hreach : reachable W NETWORK_CONFIGS st).
  { eapply reach_call; [apply reach_initial|]. apply surjective_pairing. }
  assert (Hcall : get_web3_provider W NETWORK_CONFIGS 1 false st
                  = (inr (p, true), snd (get_web3_provider W NETWORK_CONFIGS 1 false st))).
  { vm_compute. reflexivity. }
  split; [exact Hreach|]. split; [rewrite Hcall; reflexivity|].
  exact (proj2 (acquire_reports_requested_chain W NETWORK_CONFIGS 1 false st p true _
                  Hreach Hcall)).
Defined.

(** C5 at work: chain 2 is not configured. *)
Lemma unknown_network_rejected_witness :
  NETWORK_CONFIGS !! 2 = None /\
  get_web3_provider Scenarios.mainnet_up NETWORK_CONFIGS 2 false initial
  = (inl (UnsupportedNetwork 2), initial).
Proof.
  assert (Hnone : NETWORK_CONFIGS !! 2 = None) by (vm_compute; reflexivity).
  split; [exact Hnone|].
  exact (proj1 (unknown_network_rejected Scenarios.mainnet_up NETWORK_CONFIGS 2 false
                  initial Hnone)).
Defined.

Section Mismatch.

Variable W : World.

Lemma requests_to_app u m tr tr' :
  requests_to u m (tr ++ tr') = (requests_to u m tr + requests_to u m tr')%nat.
Proof. unfold requests_to. rewrite List.filter_app, List.length_app. reflexivity. Qed.

(** The attempt in which the endpoint reports another chain: three
    requests, then the error of line 153 inside the one of line 156. *)
Lemma connect_attempt_mismatch network_id rpc_url st b c :
  is_connected (W (moment st) rpc_url) = Returns true ->
  get_block_latest (W (moment st) rpc_url) = Returns (Some b) ->
  chain_id (W (moment st) rpc_url) = Returns c ->
  c <> network_id ->
  connect_attempt W network_id rpc_url st
  = (inl (HealthCheckFailed (ChainIdMismatch network_id c)),
     mkState (web3_providers st) (moment st)
       (trace st ++ [Rpc rpc_url is_connected_m; Rpc rpc_url get_block_m;
                     Rpc rpc_url chain_id_m])).
Proof.
  intros H1 H2 H3 Hne. open_attempt. reduce.
  rewrite H1. reduce. rewrite H2. reduce. rewrite H3. reduce.
  destruct (Z.eqb_spec c network_id) as [Heq|_]; [contradiction|]. reduce.
  rewrite <- !List.app_assoc. reflexivity.
Qed.

Lemma requests_to_mismatch_attempt u :
  requests_to u chain_id_m
    [Rpc u is_connected_m; Rpc u get_block_m; Rpc u chain_id_m] = 1%nat.
Proof. unfold requests_to. simpl. rewrite String.eqb_refl. reflexivity. Qed.

Lemma requests_to_sleep u m seconds : requests_to u m [Sleep seconds] = 0%nat.
Proof. reflexivity. Qed.

(** Over a whole range of attempts, against an endpoint that keeps
    reporting chain [c]. *)
Lemma attempts_loop_mismatch network_id retry rpc_url c :
  c <> network_id ->
  (forall t, is_connected (W t rpc_url) = Returns true /\
             (exists b, get_block_latest (W t rpc_url) = Returns (Some b)) /\
             chain_id (W t rpc_url) = Returns c) ->
  forall attempts last_error st,
  exists st',
    attempts_loop W network_id retry rpc_url attempts last_error st
    = (inr (match attempts with
            | [] => last_error
            | _ :: _ => Some (HealthCheckFailed (ChainIdMismatch network_id c))
            end), st') /\
    requests_to rpc_url chain_id_m (trace st')
    = (requests_to rpc_url chain_id_m (trace st) + List.length attempts)%nat /\
    web3_providers st' = web3_providers st.
Proof.
  intros Hne Hwrong attempts.
  induction attempts as [|attempt attempts IH]; intros last_error st.
  - exists st. simpl. repeat split; lia.
  - destruct (Hwrong (moment st)) as (H1 & (b & H2) & H3).
    simpl. rewrite (connect_attempt_mismatch _ _ _ _ _ H1 H2 H3 Hne).
    match goal with
    | |- context [attempts_loop W network_id retry rpc_url attempts ?le ?s] =>
        destruct (IH le s) as (st' & Hloop & Hcount & Hdict)
    end.
    exists st'. rewrite Hloop. split.
    + destruct attempts; reflexivity.
    + rewrite Hcount, Hdict. split.
      * destruct (attempt <? retry - 1); unfold advance, log; reduce;
          rewrite ?requests_to_app, requests_to_mismatch_attempt,
            ?requests_to_sleep; simpl; lia.
      * destruct (attempt <? retry - 1); reflexivity.
Qed.

Lemma range_length n : List.length (range n) = Z.to_nat n.
Proof. unfold range. rewrite List.length_map, List.length_seq. reflexivity. Qed.

(** C6, amended.  A chain identifier that differs from the requested one
    is one more failed attempt.  After such an attempt the loop goes on
    with the attempts that are left for the same URL, having slept
    [attempt + 1] seconds unless this was the last one; an endpoint that
    keeps reporting the other chain is asked [retry_count] times before the
    loop over the URLs moves on to the next one. *)
Theorem mismatch_retried_like_any_failure network_id rpc_url c :
  c <> network_id ->
  (forall retry attempt attempts last_error st b,
     is_connected (W (moment st) rpc_url) = Returns true ->
     get_block_latest (W (moment st) rpc_url) = Returns (Some b) ->
     chain_id (W (moment st) rpc_url) = Returns c ->
     attempts_loop W network_id retry rpc_url (attempt :: attempts) last_error st
     = attempts_loop W network_id retry rpc_url attempts
         (Some (HealthCheckFailed (ChainIdMismatch network_id c)))
         (let tried :=
            mkState (web3_providers st) (moment st)
              (trace st ++ [Rpc rpc_url is_connected_m; Rpc rpc_url get_block_m;
                            Rpc rpc_url chain_id_m]) in
          advance (if attempt <? retry - 1
                   then log (Sleep (1 * (attempt + 1))) tried
                   else tried))) /\
  ((forall t, is_connected (W t rpc_url) = Returns true /\
              (exists b, get_block_latest (W t rpc_url) = Returns (Some b)) /\
              chain_id (W t rpc_url) = Returns c) ->
   forall retry urls last_error st,
     0 < retry ->
     exists st',
       attempts_loop W network_id retry rpc_url (range retry) last_error st
       = (inr (Some (HealthCheckFailed (ChainIdMismatch network_id c))), st') /\
       requests_to rpc_url chain_id_m (trace st')
       = (requests_to rpc_url chain_id_m (trace st) + Z.to_nat retry)%nat /\
       web3_providers st' = web3_providers st /\
       urls_loop W network_id retry (rpc_url :: urls) last_error st
       = urls_loop W network_id retry urls
           (Some (HealthCheckFailed (ChainIdMismatch network_id c))) st').
Proof.
  intros Hne. split.
  - intros retry attempt attempts last_error st b H1 H2 H3.
    simpl. rewrite (connect_attempt_mismatch _ _ _ _ _ H1 H2 H3 Hne). reflexivity.
  - intros Hwrong retry urls last_error st Hretry.
    destruct (attempts_loop_mismatch network_id retry rpc_url c Hne Hwrong
                (range retry) last_error st) as (st' & Hloop & Hcount & Hdict).
    assert (Hrange : exists a l, range retry = a :: l).
    { unfold range. destruct (Z.to_nat retry) eqn:Hn; [lia|].
      simpl. eauto. }
    destruct Hrange as (a & l & Hrange).
    rewrite range_length in Hcount.
    exists st'. rewrite Hloop. rewrite Hrange. repeat split; try assumption.
    simpl. rewrite Hloop. rewrite Hrange. reflexivity.
Qed.

End Mismatch.

(** C6, as stated, fails.  The first endpoint configured for chain 1
    reports chain 56 in every attempt; a call for chain 1 asks it for its
    chain identifier three times, not once. *)
Lemma mismatch_retried_same_endpoint : ~ Stated.hard_failure_on_mismatch.
Proof.
  intros H.
  specialize (H Scenarios.first_endpoint_on_bsc 1 false initial
                (fst (get_web3_provider Scenarios.first_endpoint_on_bsc NETWORK_CONFIGS 1
                        false initial))
                (snd (get_web3_provider Scenarios.first_endpoint_on_bsc NETWORK_CONFIGS 1
                        false initial))
                "https://eth.drpc.org" 56).
  assert (Hcount :
    requests_to "https://eth.drpc.org" chain_id_m
      (trace (snd (get_web3_provider Scenarios.first_endpoint_on_bsc NETWORK_CONFIGS 1
                     false initial))) = 3%nat) by (vm_compute; reflexivity).
  rewrite Hcount in H. simpl in H.
  assert (Habs : (3 <= 1)%nat); [|lia].
  apply H.
  - discriminate.
  - intros t. repeat split. exists 19000000. reflexivity.
  - apply surjective_pairing.
Qed.

(** The amended statement on that endpoint: with [retry_count = 3] it is
    asked three times, and only then is the second URL tried. *)
Lemma mismatch_retried_like_any_failure_witness :
  exists st',
    attempts_loop Scenarios.first_endpoint_on_bsc 1 3 "https://eth.drpc.org"
      (range 3) None initial
    = (inr (Some (HealthCheckFailed (ChainIdMismatch 1 56))), st') /\
    requests_to "https://eth.drpc.org" chain_id_m (trace st') = 3%nat.
Proof.
  assert (Hne : 56 <> 1) by discriminate.
  assert (Hwrong : forall t,
            is_connected (Scenarios.first_endpoint_on_bsc t "https://eth.drpc.org")
            = Returns true /\
            (exists b, get_block_latest
                         (Scenarios.first_endpoint_on_bsc t "https://eth.drpc.org")
                       = Returns (Some b)) /\
            chain_id (Scenarios.first_endpoint_on_bsc t "https://eth.drpc.org")
            = Returns 56).
  { intros t. repeat split. exists 19000000. reflexivity. }
  assert (Hretry : 0 < 3) by lia.
  destruct (proj2 (mismatch_retried_like_any_failure Scenarios.first_endpoint_on_bsc
                     1 "https://eth.drpc.org" 56 Hne)
              Hwrong 3 [] None initial Hretry)
    as (st' & Hloop & Hcount & _).
  exists st'. split; [exact Hloop|exact Hcount].
Defined.

End ConnFacts.

(* ===================================================================== *)
(** ** Properties of the scoring pipeline *)
(* ===================================================================== *)

Module ScannerFacts.

Import Scanner.

Open Scope Q_scope.

(** The static analysis in closed form: the findings of the checks that
    fire, in the order of the checks, and the sum of their increments. *)
Lemma static_analysis_closed_form source_code :
  let found (fires : bool) (f : Finding) := if fires then [f] else [] in
  let weight (fires : bool) (q : Q) := if fires then q else 0 in
  fst (static_analysis source_code)
  = found (has_reentrancy source_code) reentrancy
    ++ found (has_unchecked_return source_code) unchecked_return
    ++ found (lacks_safemath source_code) integer_overflow
    ++ found (has_tx_origin source_code) tx_origin /\
  snd (static_analysis source_code)
  == weight (has_reentrancy source_code) 0.4
     + weight (has_unchecked_return source_code) 0.3
     + weight (lacks_safemath source_code) 0.2
     + weight (has_tx_origin source_code) 0.4.
Proof.
  unfold static_analysis, check.
  destruct (has_reentrancy source_code), (has_unchecked_return source_code),
    (lacks_safemath source_code), (has_tx_origin source_code);
    split; vm_compute; reflexivity.
Qed.

Lemma static_score_range source_code :
  0 <= snd (static_analysis source_code) <= 1.3.
Proof.
  destruct (static_analysis_closed_form source_code) as [_ H].
  rewrite H.
  destruct (has_reentrancy source_code), (has_unchecked_return source_code),
    (lacks_safemath source_code), (has_tx_origin source_code);
    split; vm_compute; discriminate.
Qed.

(** C9.  Each check that fires appends its finding and adds its increment
    (0.4, 0.3, 0.2, 0.4); with [call.value] and no [ReentrancyGuard], no
    [SafeMath], [tx.origin], and no unchecked low-level call the findings
    are reentrancy, integer_overflow and tx_origin, and the running score
    is 0.4 + 0.2 + 0.4 = 1.0, which the clamp leaves at 1.0. *)
Theorem static_checks_additive source_code :
  let found (fires : bool) (f : Finding) := if fires then [f] else [] in
  let weight (fires : bool) (q : Q) := if fires then q else 0 in
  (fst (static_analysis source_code)
   = found (has_reentrancy source_code) reentrancy
     ++ found (has_unchecked_return source_code) unchecked_return
     ++ found (lacks_safemath source_code) integer_overflow
     ++ found (has_tx_origin source_code) tx_origin /\
   snd (static_analysis source_code)
   == weight (has_reentrancy source_code) 0.4
      + weight (has_unchecked_return source_code) 0.3
      + weight (lacks_safemath source_code) 0.2
      + weight (has_tx_origin source_code) 0.4) /\
  (Text.contains "call.value" source_code = true ->
   Text.contains "ReentrancyGuard" source_code = false ->
   Text.contains "SafeMath" source_code = false ->
   Text.contains "tx.origin" source_code = true ->
   has_unchecked_return source_code = false ->
   fst (static_analysis source_code) = [reentrancy; integer_overflow; tx_origin] /\
   map type (fst (static_analysis source_code))
   = ["reentrancy"; "integer_overflow"; "tx_origin"]%string /\
   snd (static_analysis source_code) == 0.4 + 0.2 + 0.4 /\
   snd (static_analysis source_code) == 1.0 /\
   Qmin (snd (static_analysis source_code)) 1.0 == 1.0).
Proof.
  intros found weight. split; [apply static_analysis_closed_form|].
  intros Hcall Hguard Hsafe Horigin Hlow.
  unfold static_analysis, check, has_reentrancy, lacks_safemath, has_tx_origin.
  rewrite Hcall, Hguard, Hsafe, Horigin, Hlow.
  repeat split; vm_compute; try reflexivity; discriminate.
Qed.

Lemma static_checks_additive_witness :
  fst (static_analysis Scenarios.three_patterns) = [reentrancy; integer_overflow; tx_origin] /\
  snd (static_analysis Scenarios.three_patterns) == 1.0.
Proof.
  destruct (proj2 (static_checks_additive Scenarios.three_patterns))
    as (Hfound & _ & _ & Hscore & _); try (vm_compute; reflexivity).
  split; [exact Hfound|exact Hscore].
Defined.

(** The analysis proper when the inference call answered without an
    [error] key and with a score. *)
Lemma inspect_answered answer source_code a :
  ca_error answer = None ->
  ca_risk_score answer = Some a ->
  risk_score (inspect (Returns answer) source_code)
  = Qmin (0.6 * a + 0.4 * Qmin (snd (static_analysis source_code)) 1.0) 1.0 /\
  vulnerabilities (inspect (Returns answer) source_code)
  = fst (static_analysis source_code) ++ default [] (ca_vulnerabilities answer) /\
  error (inspect (Returns answer) source_code) = None.
Proof.
  intros Herr Hscore. unfold inspect, analyze_smart_contract.
  destruct (static_analysis source_code) as [found score].
  rewrite Herr, Hscore. simpl. repeat split.
Qed.

(** The analysis proper when the inference call raised. *)
Lemma inspect_failed e source_code :
  inspect (Raises e) source_code
  = mkScanOutput None (fst (static_analysis source_code))
      (Qmin (snd (static_analysis source_code)) 1.0)
      (Some (generate_recommendations (fst (static_analysis source_code)))).
Proof.
  unfold inspect, analyze_smart_contract.
  destruct (static_analysis source_code) as [found score]. reflexivity.
Qed.

Section Scan.

Variable W : Conn.World.
Variable configs : gmap Z Conn.NetworkConfig.
Variable query_get : Z -> option Network.

(** Every early return of [analyze_contract] carries the [error] key. *)
Lemma verify_network_refuses network st early st' :
  verify_network W configs network st = (Some early, st') ->
  exists e, error early = Some e.
Proof.
  unfold verify_network.
  assert (Hverify : forall w3 st1,
    match Conn.rpc W w3 Conn.chain_id_m Conn.chain_id st1 with
    | (inl e, s) =>
        (Some (refused (ChainUnverified (name network) e)
                 (Some ["Check network connectivity"%string])), Conn.advance s)
    | (inr chain, s) =>
        if negb (chain =? chain_id network)%Z
        then (Some (refused (ChainMismatch (name network) (chain_id network) chain)
                      (Some ["Verify network configuration"%string])), Conn.advance s)
        else (None, Conn.advance s)
    end = (Some early, st') -> exists e, error early = Some e).
  { intros w3 st1.
    destruct (Conn.rpc W w3 Conn.chain_id_m Conn.chain_id st1) as [[e|chain] s].
    - intros H. inversion H; subst. eexists. reflexivity.
    - destruct (negb (chain =? chain_id network)%Z);
        intros H; inversion H; subst. eexists. reflexivity. }
  destruct (Conn.get_web3_provider W configs (chain_id network) false st)
    as [[e|[w3 [|]]] st1].
  - intros H. inversion H; subst. eexists. reflexivity.
  - apply Hverify.
  - destruct (Conn.get_web3_provider W configs (chain_id network) true st1)
      as [[e|[w3' [|]]] st2].
    + intros H. inversion H; subst. eexists. reflexivity.
    + apply Hverify.
    + intros H. inversion H; subst. eexists. reflexivity.
Qed.

(** A scan takes a reachable state of the connection manager to a
    reachable state. *)
Lemma analyze_contract_reachable client source_code network_id st out st' :
  Conn.reachable W configs st ->
  analyze_contract W configs query_get client source_code network_id st = (out, st') ->
  Conn.reachable W configs st'.
Proof.
  intros Hreach. unfold analyze_contract.
  destruct (query_get network_id) as [network|].
  2:{ intros H. inversion H; subst. exact Hreach. }
  assert (Hverify : forall w3 st1 o st2,
    Conn.reachable W configs st1 ->
    match Conn.rpc W w3 Conn.chain_id_m Conn.chain_id st1 with
    | (inl e, s) =>
        (Some (refused (ChainUnverified (name network) e)
                 (Some ["Check network connectivity"%string])), Conn.advance s)
    | (inr chain, s) =>
        if negb (chain =? chain_id network)%Z
        then (Some (refused (ChainMismatch (name network) (chain_id network) chain)
                      (Some ["Verify network configuration"%string])), Conn.advance s)
        else (None, Conn.advance s)
    end = (o, st2) -> Conn.reachable W configs st2).
  { intros w3 st1 o st2 Hst1. unfold Conn.rpc.
    pose proof (Conn.reach_wait W configs _
                  (Conn.reach_request W configs st1 w3 Conn.chain_id_m Hst1)) as Hnext.
    destruct (Conn.chain_id (W (Conn.moment st1) (Conn.url w3))) as [chain|msg].
    - destruct (negb (chain =? chain_id network)%Z);
        intros H; inversion H; subst; exact Hnext.
    - intros H; inversion H; subst; exact Hnext. }
  assert (Hnet : forall o st2,
    verify_network W configs network st = (o, st2) -> Conn.reachable W configs st2).
  { intros o st2. unfold verify_network.
    destruct (Conn.get_web3_provider W configs (chain_id network) false st)
      as [[e|[w3 [|]]] st1] eqn:Hcall;
      pose proof (Conn.reach_call W configs _ _ _ _ _ Hreach Hcall) as Hst1.
    - intros H. inversion H; subst. exact Hst1.
    - apply Hverify. exact Hst1.
    - destruct (Conn.get_web3_provider W configs (chain_id network) true st1)
        as [[e|[w3' [|]]] st3] eqn:Hcall';
        pose proof (Conn.reach_call W configs _ _ _ _ _ Hst1 Hcall') as Hst3.
      + intros H. inversion H; subst. exact Hst3.
      + apply Hverify. exact Hst3.
      + intros H. inversion H; subst. exact Hst3. }
  destruct (verify_network W configs network st) as [[early|] st1] eqn:Hv;
    intros H; inversion H; subst; eapply Hnet; reflexivity.
Qed.

(** A scan whose output has no [error] key went through the analysis
    proper. *)
Lemma analyze_contract_analysed client source_code network_id st out st' :
  analyze_contract W configs query_get client source_code network_id st = (out, st') ->
  error out = None ->
  out = inspect client source_code.
Proof.
  unfold analyze_contract.
  destruct (query_get network_id) as [network|].
  2:{ intros H. inversion H; subst. discriminate. }
  destruct (verify_network W configs network st) as [[early|] st1] eqn:Hverify.
  - intros H. inversion H; subst.
    destruct (verify_network_refuses _ _ _ _ Hverify) as [e He].
    rewrite He. discriminate.
  - intros H. inversion H; subst. reflexivity.
Qed.

(** C2, amended.  When the scan reaches the inference call and the call
    returns an object without [error] key, with a score [a] in [0, 1], the
    score returned is [min(0.6 * a + 0.4 * min(l, 1.0), 1.0)] for the
    static score [l]; [l] is never negative, and over the reals the
    expression equals its clamp to [0, 1] and lies in [0, 1].  An answer
    with an [error] key counts as a failure: the score is [min(l, 1.0)].
    With [l = 1.3] and [a = 0.9] the real value is 0.94; the code computes
    in binary64 and returns 0.9400000000000001. *)
Theorem combined_score_clamped answer source_code network_id st out st' :
  analyze_contract W configs query_get (Returns answer) source_code network_id st
  = (out, st') ->
  error out = None ->
  let l := snd (static_analysis source_code) in
  0 <= l /\
  (forall a,
     ca_error answer = None -> ca_risk_score answer = Some a -> 0 <= a <= 1 ->
     risk_score out == Qmin (0.6 * a + 0.4 * Qmin l 1.0) 1.0 /\
     risk_score out == clamp01 (0.6 * a + 0.4 * Qmin l 1.0) /\
     risk_score out == 0.6 * a + 0.4 * Qmin l 1.0 /\
     0 <= risk_score out <= 1 /\
     vulnerabilities out
     = fst (static_analysis source_code) ++ default [] (ca_vulnerabilities answer)) /\
  (forall e,
     ca_error answer = Some e ->
     risk_score out == Qmin l 1.0 /\
     vulnerabilities out = fst (static_analysis source_code)) /\
  (l == 1.3 ->
   0.6 * 0.9 + 0.4 * Qmin l 1.0 == 0.94 /\
   Binary64.final_score 0.9 source_code = 0.9400000000000001%float).
Proof.
  intros Hscan Hok l.
  rewrite (analyze_contract_analysed _ _ _ _ _ _ Hscan Hok).
  pose proof (static_score_range source_code) as [Hl _]. fold l in Hl.
  split; [exact Hl|]. split; [|split].
  - intros a Herr Hscore Ha.
    destruct (inspect_answered answer source_code a Herr Hscore) as (-> & -> & _).
    fold l. unfold clamp01.
    destruct (Q.min_spec l 1.0) as [[Hlt Hmin]|[Hge Hmin]];
      destruct (Q.min_spec (0.6 * a + 0.4 * Qmin l 1.0) 1.0) as [[Hlt' Hmin']|[Hge' Hmin']];
      destruct (Q.max_spec 0 (0.6 * a + 0.4 * Qmin l 1.0)) as [[Hlt'' Hmax]|[Hge'' Hmax]];
      destruct (Q.min_spec 1 (Qmax 0 (0.6 * a + 0.4 * Qmin l 1.0)))
        as [[Hlt3 Hmin3]|[Hge3 Hmin3]];
      repeat split; try reflexivity; lra.
  - intros e Herr. unfold inspect, analyze_smart_contract. subst l.
    destruct (static_analysis source_code) as [found score]. rewrite Herr. simpl.
    split; reflexivity.
  - intros Hfour. split.
    + destruct (Q.min_spec l 1.0) as [[Hlt Hmin]|[Hge Hmin]]; lra.
    + subst l. destruct (static_analysis_closed_form source_code) as [_ Hsum].
      rewrite Hsum in Hfour. clear Hsum Hl.
      unfold Binary64.final_score, Binary64.static_score, Binary64.check.
      destruct (has_reentrancy source_code), (has_unchecked_return source_code),
        (lacks_safemath source_code), (has_tx_origin source_code);
        try (vm_compute in Hfour; discriminate Hfour).
      reflexivity.
Qed.

(** C3, amended.  When the inference call raises, the analyzer turns the
    exception into the placeholder (an [error] text, no findings, score
    1.0) and the scan goes on; the scanner then leaves the placeholder out
    of the combination: the findings are the static ones and the score is
    the static score, capped at 1.0. *)
Theorem inference_failure_keeps_static_score e source_code network_id network st st' :
  query_get network_id = Some network ->
  verify_network W configs network st = (None, st') ->
  analyze_smart_contract (Raises e)
  = mkCodeAnalysis (Some ("AI analysis failed: " ++ e)%string) (Some []) (Some 1.0) /\
  analyze_contract W configs query_get (Raises e) source_code network_id st
  = (mkScanOutput None (fst (static_analysis source_code))
       (Qmin (snd (static_analysis source_code)) 1.0)
       (Some (generate_recommendations (fst (static_analysis source_code)))),
     st') /\
  0 <= Qmin (snd (static_analysis source_code)) 1.0 <= 1.
Proof.
  intros Hnet Hverify. split; [reflexivity|]. split.
  - unfold analyze_contract. rewrite Hnet, Hverify, inspect_failed. reflexivity.
  - pose proof (static_score_range source_code) as [Hl _].
    destruct (Q.min_spec (snd (static_analysis source_code)) 1.0)
      as [[Hlt Hmin]|[Hge Hmin]]; lra.
Qed.

End Scan.

(** C2, as stated, fails at its own example.  The four static checks fire
    (subtotal 1.3 over the reals) and the service answers 0.9: line 132
    yields the binary64 number 0.9400000000000001, which is not the one
    that 0.94 denotes. *)
Lemma example_rounds_above : ~ Stated.example_is_exactly_094.
Proof.
  unfold Stated.example_is_exactly_094. intros H.
  apply (f_equal (fun x => PrimFloat.eqb x 0.94)) in H.
  vm_compute in H. discriminate H.
Qed.

(** C2, amended, at work: the four static checks fire and the service
    answers 0.9 with one finding. *)
Lemma combined_score_clamped_witness :
  let out :=
    fst (analyze_contract Scenarios.mainnet_up Conn.NETWORK_CONFIGS Scenarios.networks
           (Returns Scenarios.critical_answer) Scenarios.four_patterns 1 Conn.initial) in
  error out = None /\
  snd (static_analysis Scenarios.four_patterns) == 1.3 /\
  0 <= risk_score out <= 1 /\
  List.length (vulnerabilities out) = 5%nat /\
  Binary64.final_score 0.9 Scenarios.four_patterns = 0.9400000000000001%float.
Proof.
  intros out.
  assert (Hok : error out = None) by (vm_compute; reflexivity).
  assert (Hl : snd (static_analysis Scenarios.four_patterns) == 1.3)
    by (vm_compute; reflexivity).
  assert (Ha : 0 <= 0.9 <= 1) by (split; vm_compute; discriminate).
  destruct (combined_score_clamped Scenarios.mainnet_up Conn.NETWORK_CONFIGS
              Scenarios.networks Scenarios.critical_answer Scenarios.four_patterns 1
              Conn.initial out _ (surjective_pairing _) Hok)
    as (_ & Hanswered & _ & Hexample).
  destruct (Hanswered 0.9 eq_refl eq_refl Ha) as (_ & _ & _ & Hrange & Hfound).
  destruct (Hexample Hl) as [_ Hfloat].
  split; [exact Hok|]. split; [exact Hl|]. split; [exact Hrange|].
  split; [rewrite Hfound; reflexivity|exact Hfloat].
Defined.

(** C3, as stated, fails.  A clean contract (static score 0) scanned while
    the inference call raises gets the score 0; with the placeholder in
    the combination it would be 0.6 * 1.0 + 0.4 * 0 = 0.6. *)
Lemma placeholder_left_out : ~ Stated.placeholder_is_combined.
Proof.
  intros H.
  specialize (H Scenarios.mainnet_up Conn.NETWORK_CONFIGS Scenarios.networks
                "timeout"%string Scenarios.clean 1%Z Conn.initial _ _
                (surjective_pairing _)).
  assert (Hok : error (fst (analyze_contract Scenarios.mainnet_up Conn.NETWORK_CONFIGS
                              Scenarios.networks (Raises "timeout") Scenarios.clean 1
                              Conn.initial)) = None) by (vm_compute; reflexivity).
  specialize (H Hok). vm_compute in H. discriminate H.
Qed.

(** C3, amended, at work: the scan of the clean contract on a healthy
    network. *)
Lemma inference_failure_keeps_static_score_witness :
  let scan :=
    analyze_contract Scenarios.mainnet_up Conn.NETWORK_CONFIGS Scenarios.networks
      (Raises "timeout") Scenarios.clean 1 Conn.initial in
  error (fst scan) = None /\
  vulnerabilities (fst scan) = [] /\
  risk_score (fst scan) == 0.
Proof.
  intros scan.
  assert (Hnet : Scenarios.networks 1 = Some (mkNetwork "Ethereum Mainnet" 1))
    by reflexivity.
  assert (Hverify :
    verify_network Scenarios.mainnet_up Conn.NETWORK_CONFIGS
      (mkNetwork "Ethereum Mainnet" 1) Conn.initial
    = (None, snd (verify_network Scenarios.mainnet_up Conn.NETWORK_CONFIGS
                    (mkNetwork "Ethereum Mainnet" 1) Conn.initial)))
    by (vm_compute; reflexivity).
  destruct (inference_failure_keeps_static_score Scenarios.mainnet_up
              Conn.NETWORK_CONFIGS Scenarios.networks "timeout" Scenarios.clean 1
              (mkNetwork "Ethereum Mainnet" 1) Conn.initial _ Hnet Hverify)
    as (_ & Hscan & _).
  subst scan. rewrite Hscan. simpl. repeat split.
Defined.

(** C4, as stated, fails: the wallet scan in which the inference call
    raises returns the score 0, not 0.3. *)
Lemma wallet_failure_scores_zero : ~ Stated.wallet_failure_scores_03.
Proof.
  intros H. specialize (H "timeout"%string "0xabc"%string 1%Z).
  vm_compute in H. discriminate H.
Qed.

(** C4, amended.  When the inference call raises during a wallet scan, the
    analyzer's placeholder has score 0.5 and no patterns; the scanner adds
    no flag and skips the combination, so the score returned is the one of
    the interaction check, 0.  Had the placeholder been combined, as it is
    when the [error] key is absent, the score would be
    0.4 * 0 + 0.6 * 0.5 = 0.3. *)
Theorem wallet_failure_skips_combination e address network_id :
  analyze_transaction_patterns (Raises e)
  = mkTransactionAnalysis (Some ("Transaction analysis failed: " ++ e)%string)
      (Some []) (Some 0.5) /\
  check_wallet_safety (Raises e) address network_id = mkWalletOutput address 0 [] /\
  wallet_risk_score
    (check_wallet_safety (Returns (mkTransactionAnalysis None (Some []) (Some 0.5)))
       address network_id) == 0.3.
Proof.
  split; [reflexivity|]. split; [reflexivity|]. vm_compute. reflexivity.
Qed.

End ScannerFacts.

(* ===================================================================== *)
(** ** Properties of the report *)
(* ===================================================================== *)

Module ReportFacts.

Import Scanner Report.

Lemma counted_iff s :
  counted s = true <-> s = "high"%string \/ s = "medium"%string \/ s = "low"%string.
Proof.
  unfold counted.
  destruct (String.eqb_spec s "high"), (String.eqb_spec s "medium"),
    (String.eqb_spec s "low"); simpl; split; intros Hs; auto; try discriminate.
  destruct Hs as [Hs|[Hs|Hs]]; contradiction.
Qed.

(** The dictionary the count starts from has the three keys and no other. *)
Lemma severity_counts_keys s :
  is_Some ((<["high"%string := 0%nat]>
              (<["medium"%string := 0%nat]> (<["low"%string := 0%nat]> ∅))
            : gmap string nat) !! s)
  <-> counted s = true.
Proof.
  rewrite counted_iff, !lookup_insert, lookup_empty.
  repeat case_decide; subst; split; intros Hs; auto.
  - destruct Hs as [x Hx]. discriminate Hx.
  - destruct Hs as [Hs|[Hs|Hs]]; congruence.
Qed.

(** The loop ends without a [KeyError] exactly when every severity is a
    key; the keys do not change on the way. *)
Lemma count_severities_returns vulnerabilities :
  forall counts : gmap string nat,
    (forall s, is_Some (counts !! s) <-> counted s = true) ->
    (exists counts', count_severities vulnerabilities counts = inr counts')
    <-> Forall (fun v => counted (severity v) = true) vulnerabilities.
Proof.
  induction vulnerabilities as [|vuln rest IH]; intros counts Hkeys; simpl.
  - split; [constructor|]. intros _. eexists. reflexivity.
  - destruct (counts !! severity vuln) as [n|] eqn:Hlook.
    + assert (Hc : counted (severity vuln) = true).
      { apply Hkeys. rewrite Hlook. eexists. reflexivity. }
      rewrite IH.
      * split; [intros H; constructor; assumption|].
        intros H. inversion H; assumption.
      * intros s. rewrite lookup_insert. case_decide as Heq.
        -- subst s. split; [intros _; exact Hc|]. intros _. eexists. reflexivity.
        -- apply Hkeys.
    + assert (Hc : counted (severity vuln) <> true).
      { intros Hc. apply Hkeys in Hc. rewrite Hlook in Hc.
        destruct Hc as [x Hx]. discriminate Hx. }
      split.
      * intros [counts' H]. discriminate H.
      * intros H. inversion H; subst. contradiction.
Qed.

(** C10.  [generate_report] returns a report exactly when the severity of
    every finding is [high], [medium] or [low]; and a scan can store a
    finding with another severity: the findings of the inference service
    are appended as they come, so a scan in which it answers with one
    finding rated [critical] is stored, and the report of the stored row
    is the [KeyError] for [critical]. *)
Theorem generate_report_partial :
  (forall scan_result,
     (exists report, generate_report scan_result = inr report)
     <-> Forall (fun v => severity v = "high"%string \/ severity v = "medium"%string \/
                          severity v = "low"%string)
           (sr_vulnerabilities scan_result)) /\
  (let out :=
     fst (analyze_contract Scenarios.mainnet_up Conn.NETWORK_CONFIGS Scenarios.networks
            (Returns Scenarios.critical_answer) Scenarios.clean 1 Conn.initial) in
   exists scan_result,
     store out 0 = Some scan_result /\
     In (mkFinding "access_control" "critical" "Unprotected selfdestruct")
        (sr_vulnerabilities scan_result) /\
     generate_report scan_result = inl (mkKeyError "critical")).
Proof.
  split.
  - intros scan_result. unfold generate_report.
    pose proof (count_severities_returns (sr_vulnerabilities scan_result) _
                  severity_counts_keys) as Hloop.
    assert (Hsame :
      Forall (fun v => counted (severity v) = true) (sr_vulnerabilities scan_result)
      <-> Forall (fun v => severity v = "high"%string \/ severity v = "medium"%string \/
                           severity v = "low"%string) (sr_vulnerabilities scan_result)).
    { rewrite !List.Forall_forall. split; intros H v Hv; apply counted_iff, H, Hv. }
    rewrite <- Hsame, <- Hloop.
    destruct (count_severities (sr_vulnerabilities scan_result) _) as [e|counts].
    + split; intros [x Hx]; discriminate Hx.
    + split; intros _; eexists; reflexivity.
  - eexists. split; [vm_compute; reflexivity|].
    split; [simpl; auto|vm_compute; reflexivity].
Qed.

End ReportFacts.

(* ===================================================================== *)
(** ** Further properties of the rate limiter *)
(* ===================================================================== *)

Module LimiterFacts.

Import RateLimit Observed.

Lemma window_count_app w t l1 l2 :
  initiated_in_window w t (l1 ++ l2)
  = (initiated_in_window w t l1 + initiated_in_window w t l2)%nat.
Proof.
  unfold initiated_in_window. rewrite List.filter_app, List.length_app. reflexivity.
Qed.

Lemma window_count_le_length w t l :
  (initiated_in_window w t l <= List.length l)%nat.
Proof. unfold initiated_in_window. apply List.filter_length_le. Qed.

(** Instants that are [w] or more before [t] are outside the window. *)
Lemma window_count_out w t l :
  (forall a, In a l -> a + w <= t) -> initiated_in_window w t l = 0%nat.
Proof.
  unfold initiated_in_window.
  induction l as [|a l IH]; intros Hout; simpl; [reflexivity|].
  assert (Ha : a + w <= t) by (apply Hout; left; reflexivity).
  destruct (Z.ltb_spec (t - w) a); [lia|]. simpl.
  apply IH. intros b Hb. apply Hout. right. exact Hb.
Qed.

(** A count is the count among the kept plus the count among the rest. *)
Lemma window_count_split w t (f : Z -> bool) l :
  initiated_in_window w t l
  = (initiated_in_window w t (List.filter f l)
     + initiated_in_window w t (List.filter (fun a => negb (f a)) l))%nat.
Proof.
  unfold initiated_in_window.
  induction l as [|a l IH]; simpl; [reflexivity|].
  destruct (f a); simpl; destruct ((t - w <? a) && (a <=? t)); simpl; lia.
Qed.

(** The two answers of [allow_request], spelled out. *)
Lemma allow_request_cases now self :
  let kept :=
    List.filter (fun a => now - a <? timedelta_seconds (time_window self))
      (requests self) in
  (Z.of_nat (List.length kept) < max_requests self /\
   allow_request now self
   = (true, mkLimiter (max_requests self) (time_window self) (kept ++ [now]))) \/
  (max_requests self <= Z.of_nat (List.length kept) /\
   allow_request now self
   = (false, mkLimiter (max_requests self) (time_window self) kept)).
Proof.
  intros kept. unfold allow_request. fold kept. rewrite Z.geb_leb.
  destruct (Z.leb_spec (max_requests self) (Z.of_nat (List.length kept)));
    [right|left]; split; auto.
Qed.

(** The invariant behind the bound: with [old] the admitted instants that
    were pruned, no window holds more than [max_requests] of the admitted
    instants, now and after the calls that are still to come. *)
Lemma admitted_bound instants :
  forall self old,
    let w := timedelta_seconds (time_window self) in
    StronglySorted Z.le instants ->
    (forall a x, In a old -> In x instants -> a + w <= x) ->
    (forall a x, In a (requests self) -> In x instants -> a <= x) ->
    Z.of_nat (List.length (requests self)) <= max_requests self ->
    (forall t, Z.of_nat (initiated_in_window w t (old ++ requests self))
               <= max_requests self) ->
    forall t,
      Z.of_nat (initiated_in_window w t (old ++ requests self ++ admitted instants self))
      <= max_requests self.
Proof.
  induction instants as [|now later IH]; intros self old w Hsorted Hold Hreq Hlen Hinv t.
  - simpl. rewrite List.app_nil_r. apply Hinv.
  - apply StronglySorted_inv in Hsorted. destruct Hsorted as [Hsorted Hnow].
    rewrite List.Forall_forall in Hnow.
    set (f := fun a => now - a <? w).
    set (kept := List.filter f (requests self)).
    set (dropped := List.filter (fun a => negb (f a)) (requests self)).
    assert (Hdropped : forall a, In a dropped -> a + w <= now).
    { intros a Ha. apply List.filter_In in Ha. destruct Ha as [_ Ha].
      unfold f in Ha. apply negb_true_iff, Z.ltb_ge in Ha. lia. }
    assert (Hkept : forall a, In a kept -> In a (requests self)).
    { intros a Ha. apply List.filter_In in Ha. tauto. }
    assert (Hold' : forall a x, In a (old ++ dropped) -> In x later -> a + w <= x).
    { intros a x Ha Hx. apply List.in_app_or in Ha. destruct Ha as [Ha|Ha].
      - apply Hold; [exact Ha|right; exact Hx].
      - specialize (Hdropped a Ha). specialize (Hnow x Hx). lia. }
    assert (Hsplit : forall u,
      initiated_in_window w u (requests self)
      = (initiated_in_window w u kept + initiated_in_window w u dropped)%nat).
    { intros u. apply window_count_split. }
    assert (Hkept_len : (List.length kept <= List.length (requests self))%nat).
    { apply List.filter_length_le. }
    simpl. destruct (allow_request_cases now self) as [[Hroom ->]|[Hfull ->]].
    + (* admitted *)
      fold w f kept in Hroom.
      assert (Hstep : forall u,
        Z.of_nat (initiated_in_window w u
                    ((old ++ dropped) ++ (kept ++ [now])
                       ++ admitted later
                            (mkLimiter (max_requests self) (time_window self)
                               (kept ++ [now]))))
        <= max_requests self).
      { apply (IH (mkLimiter (max_requests self) (time_window self) (kept ++ [now]))
                  (old ++ dropped)); simpl; fold w.
        - exact Hsorted.
        - exact Hold'.
        - intros a x Ha Hx. apply List.in_app_or in Ha. destruct Ha as [Ha|[<-|[]]].
          + apply Hreq; [apply Hkept; exact Ha|right; exact Hx].
          + apply Hnow. exact Hx.
        - rewrite List.length_app. simpl. lia.
        - intros u. specialize (Hinv u). specialize (Hsplit u).
          rewrite !window_count_app in *.
          destruct (Z.ltb_spec (u - w) now) as [Hin|Hout];
            [destruct (Z.leb_spec now u) as [Hin'|Hout']|].
          + rewrite (window_count_out w u old);
              [|intros a Ha; specialize (Hold a now Ha (or_introl eq_refl)); lia].
            rewrite (window_count_out w u dropped);
              [|intros a Ha; specialize (Hdropped a Ha); lia].
            pose proof (window_count_le_length w u kept).
            pose proof (window_count_le_length w u [now]). simpl in *. lia.
          + assert (H0 : initiated_in_window w u [now] = 0%nat).
            { unfold initiated_in_window. simpl.
              destruct (Z.leb_spec now u); [lia|]. rewrite andb_false_r. reflexivity. }
            lia.
          + assert (H0 : initiated_in_window w u [now] = 0%nat).
            { unfold initiated_in_window. simpl.
              destruct (Z.ltb_spec (u - w) now); [lia|]. reflexivity. }
            lia. }
      specialize (Hstep t). specialize (Hsplit t).
      change (now :: admitted later ?s) with ([now] ++ admitted later s).
      fold w f kept. rewrite !window_count_app in *. lia.
    + (* refused *)
      fold w f kept in Hfull.
      assert (Hstep : forall u,
        Z.of_nat (initiated_in_window w u
                    ((old ++ dropped) ++ kept
                       ++ admitted later
                            (mkLimiter (max_requests self) (time_window self) kept)))
        <= max_requests self).
      { apply (IH (mkLimiter (max_requests self) (time_window self) kept)
                  (old ++ dropped)); simpl; fold w.
        - exact Hsorted.
        - exact Hold'.
        - intros a x Ha Hx. apply Hreq; [apply Hkept; exact Ha|right; exact Hx].
        - lia.
        - intros u. specialize (Hinv u). specialize (Hsplit u).
          rewrite !window_count_app in *. lia. }
      specialize (Hstep t). specialize (Hsplit t).
      fold w f kept. rewrite !window_count_app in *. lia.
Qed.

(** X1.  [allow_request] by itself keeps its promise: asked at instants
    that do not go backwards, from a limiter without recorded requests, it
    admits at most [max_requests] requests in any trailing window of
    [time_window] seconds. *)
Theorem allow_request_bounds_admissions max_requests time_window instants t :
  0 <= max_requests ->
  StronglySorted Z.le instants ->
  Z.of_nat (initiated_in_window (timedelta_seconds time_window) t
              (admitted instants (new_limiter max_requests time_window)))
  <= max_requests.
Proof.
  intros Hmax Hsorted.
  apply (admitted_bound instants (new_limiter max_requests time_window) [] Hsorted).
  - intros a x [].
  - intros a x [].
  - simpl. exact Hmax.
  - intros u. simpl. exact Hmax.
Qed.

Lemma allow_request_bounds_admissions_witness :
  admitted [0; 1000; 2000; 3000] (new_limiter 2 60) = [0; 1000] /\
  Z.of_nat (initiated_in_window (timedelta_seconds 60) 3000
              (admitted [0; 1000; 2000; 3000] (new_limiter 2 60))) <= 2.
Proof.
  split; [reflexivity|].
  apply (allow_request_bounds_admissions 2 60 [0; 1000; 2000; 3000] 3000).
  - lia.
  - repeat constructor; lia.
Defined.

(** X2.  What one call of [allow_request] does to the record: it admits
    exactly when fewer than [max_requests] recorded instants lie inside
    the window; afterwards every recorded instant lies inside the window
    or is the one just admitted, the limits are the same, and a record
    that held at most [max_requests] instants still does. *)
Theorem allow_request_record now self allowed self' :
  allow_request now self = (allowed, self') ->
  (allowed = true <-> Z.of_nat (in_window_count now self) < max_requests self) /\
  (forall a, In a (requests self') ->
     (In a (requests self) /\ now - a < timedelta_seconds (time_window self)) \/
     (allowed = true /\ a = now)) /\
  (allowed = true -> In now (requests self')) /\
  max_requests self' = max_requests self /\
  time_window self' = time_window self /\
  (Z.of_nat (List.length (requests self)) <= max_requests self ->
   Z.of_nat (List.length (requests self')) <= max_requests self').
Proof.
  intros Hcall.
  pose proof (List.filter_length_le
                (fun a => now - a <? timedelta_seconds (time_window self))
                (requests self)) as Hle.
  destruct (allow_request_cases now self) as [[Hroom Heq]|[Hfull Heq]];
    rewrite Heq in Hcall; inversion Hcall; subst allowed self'; clear Hcall; simpl;
    unfold in_window_count.
  - repeat split; auto.
    + intros a Ha. apply List.in_app_or in Ha. destruct Ha as [Ha|[<-|[]]].
      * left. apply List.filter_In in Ha. destruct Ha as [Ha Hf].
        apply Z.ltb_lt in Hf. auto.
      * right. auto.
    + intros _. apply List.in_or_app. right. left. reflexivity.
    + intros _. rewrite List.length_app. simpl. lia.
  - repeat split; auto; try discriminate; try lia.
    intros a Ha. left. apply List.filter_In in Ha. destruct Ha as [Ha Hf].
    apply Z.ltb_lt in Hf. auto.
Qed.

Lemma allow_request_record_witness :
  allow_request 61000000 (mkLimiter 2 60 [0; 1000000])
  = (true, mkLimiter 2 60 [61000000]) /\
  Z.of_nat (in_window_count 61000000 (mkLimiter 2 60 [0; 1000000])) < 2.
Proof.
  assert (Hcall : allow_request 61000000 (mkLimiter 2 60 [0; 1000000])
                  = (true, mkLimiter 2 60 [61000000])) by reflexivity.
  split; [exact Hcall|].
  apply (proj1 (allow_request_record _ _ _ _ Hcall)). reflexivity.
Defined.

Lemma filter_drops_one (f : Z -> bool) l a :
  In a l -> f a = false -> (List.length (List.filter f l) < List.length l)%nat.
Proof.
  induction l as [|b l IH]; intros Hin Hfa; [destruct Hin|].
  simpl. destruct Hin as [->|Hin].
  - rewrite Hfa. pose proof (List.filter_length_le f l). lia.
  - specialize (IH Hin Hfa). destruct (f b); simpl; lia.
Qed.

(** What a refusal leaves, on a clock that has not gone backwards. *)
Lemma refusal_wait now self lim :
  allow_request now self = (false, lim) ->
  (forall a, In a (requests self) -> a <= now) ->
  0 <= wait_time now lim <= Z.max 0 (timedelta_seconds (time_window self)).
Proof.
  intros Hdeny Hpast.
  destruct (RateLimitFacts.allow_request_denied _ _ _ Hdeny) as (_ & Hw & Hreq & _).
  split; [apply RateLimitFacts.wait_time_nonneg|].
  destruct (requests lim) as [|r rs] eqn:Hlim.
  - unfold wait_time. rewrite Hlim. lia.
  - rewrite (RateLimitFacts.wait_time_cons _ _ _ _ Hlim), Hw.
    assert (Hin : In (list_min r rs) (requests self)).
    { pose proof (RateLimitFacts.list_min_In rs r) as Hin.
      rewrite Hreq in Hin. apply List.filter_In in Hin. tauto. }
    specialize (Hpast _ Hin). lia.
Qed.

(** X3.  A call through the wrapper is never dropped and is held back by
    at most [time_window] seconds: on a clock that has not gone backwards
    it enters the function between the instant of the call and
    [time_window] later, and that instant is what the wrapper logs. *)
Theorem wrapper_delay_bounded st :
  (forall a, In a (requests (limiter st)) -> a <= clock st) ->
  clock st <= clock (wrapper st)
           <= clock st + Z.max 0 (timedelta_seconds (time_window (limiter st))) /\
  initiated (wrapper st) = initiated st ++ [clock (wrapper st)].
Proof.
  intros Hpast. unfold wrapper.
  destruct (allow_request (clock st) (limiter st)) as [[|] lim] eqn:Hcall; simpl.
  - split; [lia|reflexivity].
  - pose proof (refusal_wait _ _ _ Hcall Hpast) as Hw.
    destruct (Z.ltb_spec 0 (wait_time (clock st) lim)); split; try reflexivity; lia.
Qed.

Lemma wrapper_delay_bounded_witness :
  let st := mkRun (mkLimiter 2 60 [0; 1000000]) 2000000 [0; 1000000] in
  clock (wrapper st) = 60000000 /\
  clock st <= clock (wrapper st) <= clock st + 60000000.
Proof.
  intros st. split; [reflexivity|].
  assert (Hpast : forall a, In a (requests (limiter st)) -> a <= clock st).
  { intros a [<-|[<-|[]]]; simpl; lia. }
  exact (proj1 (wrapper_delay_bounded st Hpast)).
Defined.

(** X4.  The wait is long enough: after a refusal, once [wait_time] has
    passed, [allow_request] would admit a request (the wrapper does not
    ask again).  This needs a limiter that admits something at all and a
    record within its limit. *)
Theorem wait_time_suffices now self lim :
  allow_request now self = (false, lim) ->
  0 < max_requests self ->
  Z.of_nat (List.length (requests self)) <= max_requests self ->
  fst (allow_request (now + wait_time now lim) lim) = true.
Proof.
  intros Hdeny Hmax Hlen.
  destruct (RateLimitFacts.allow_request_denied _ _ _ Hdeny) as (Hm & Hw & Hreq & Hfull).
  pose proof (List.filter_length_le
                (fun a => now - a <? timedelta_seconds (time_window self))
                (requests self)) as Hle.
  rewrite <- Hreq in Hle.
  destruct (requests lim) as [|r rs] eqn:Hlim; [simpl in Hfull; lia|].
  assert (Hwait : list_min r rs + timedelta_seconds (time_window lim)
                  <= now + wait_time now lim).
  { rewrite (RateLimitFacts.wait_time_cons _ _ _ _ Hlim). lia. }
  pose proof (RateLimitFacts.list_min_In rs r) as Hin. rewrite <- Hlim in Hin.
  destruct (allow_request_cases (now + wait_time now lim) lim) as [[_ ->]|[Hfull' _]];
    [reflexivity|exfalso].
  set (g := fun a => now + wait_time now lim - a <? timedelta_seconds (time_window lim))
    in Hfull'.
  assert (Hdrop : (List.length (List.filter g (requests lim))
                   < List.length (requests lim))%nat).
  { apply (filter_drops_one g _ (list_min r rs) Hin). apply Z.ltb_ge. lia. }
  rewrite Hlim in *. simpl in *. lia.
Qed.

Lemma wait_time_suffices_witness :
  allow_request 2000000 (mkLimiter 2 60 [0; 1000000])
  = (false, mkLimiter 2 60 [0; 1000000]) /\
  wait_time 2000000 (mkLimiter 2 60 [0; 1000000]) = 58000000 /\
  fst (allow_request 60000000 (mkLimiter 2 60 [0; 1000000])) = true.
Proof.
  assert (Hdeny : allow_request 2000000 (mkLimiter 2 60 [0; 1000000])
                  = (false, mkLimiter 2 60 [0; 1000000])) by reflexivity.
  split; [exact Hdeny|]. split; [reflexivity|].
  apply (wait_time_suffices 2000000 (mkLimiter 2 60 [0; 1000000])
           (mkLimiter 2 60 [0; 1000000]) Hdeny); simpl; lia.
Defined.

(** X5.  A limiter whose [max_requests] is zero or negative limits
    nothing: [allow_request] refuses every call and records nothing, so
    [wait_time] is 0 and every call enters the function at once. *)
Theorem nonpositive_limit_never_delays gaps st :
  max_requests (limiter st) <= 0 ->
  requests (limiter st) = [] ->
  limiter (run_calls gaps st) = limiter st /\
  clock (run_calls gaps st) = clock st + fold_right Z.add 0 gaps /\
  List.length (initiated (run_calls gaps st))
  = (List.length (initiated st) + List.length gaps)%nat /\
  (forall g, fst (allow_request (clock st + g) (limiter st)) = false).
Proof.
  intros Hmax Hempty.
  assert (Hstep : forall c log,
    wrapper (mkRun (limiter st) c log) = mkRun (limiter st) c (log ++ [c])).
  { intros c log. destruct (limiter st) as [m w r]. simpl in *. subst r.
    unfold wrapper, allow_request. simpl. change (Z.of_nat 0) with 0.
    destruct (Z.geb_spec 0 m); [reflexivity|lia]. }
  split; [|split; [|split]].
  - revert st Hmax Hempty Hstep.
    induction gaps as [|g gaps IH]; intros st Hmax Hempty Hstep; simpl; [reflexivity|].
    rewrite Hstep. rewrite IH; simpl; auto.
  - revert st Hmax Hempty Hstep.
    induction gaps as [|g gaps IH]; intros st Hmax Hempty Hstep; simpl; [lia|].
    rewrite Hstep. rewrite IH; simpl; auto. lia.
  - apply RateLimitFacts.run_calls_initiates_all.
  - intros g. unfold allow_request. rewrite Hempty. simpl. change (Z.of_nat 0) with 0.
    destruct (Z.geb_spec 0 (max_requests (limiter st))); [reflexivity|lia].
Qed.

Lemma nonpositive_limit_never_delays_witness :
  initiated (run_calls [0; 0; 0] (mkRun (new_limiter 0 60) 5 [])) = [5; 5; 5] /\
  clock (run_calls [0; 0; 0] (mkRun (new_limiter 0 60) 5 [])) = 5.
Proof.
  split; [reflexivity|].
  assert (Hmax : max_requests (limiter (mkRun (new_limiter 0 60) 5 [])) <= 0)
    by (simpl; lia).
  destruct (nonpositive_limit_never_delays [0; 0; 0] (mkRun (new_limiter 0 60) 5 [])
              Hmax eq_refl) as (_ & Hclock & _).
  rewrite Hclock. reflexivity.
Defined.

End LimiterFacts.

(* ===================================================================== *)
(** ** Further properties of the connection manager *)
(* ===================================================================== *)

Module ManagerFacts.

Import Conn Observed.

Lemma slept_app tr tr' : slept (tr ++ tr') = slept tr + slept tr'.
Proof.
  induction tr as [|[u m|s] tr IH]; simpl; [reflexivity|exact IH|rewrite IH; lia].
Qed.

Lemma requests_sent_app tr tr' :
  requests_sent (tr ++ tr') = (requests_sent tr + requests_sent tr')%nat.
Proof.
  induction tr as [|[u m|s] tr IH]; simpl; [reflexivity|rewrite IH; reflexivity|exact IH].
Qed.

Lemma backoff_app retry l l' : backoff retry (l ++ l') = backoff retry l + backoff retry l'.
Proof. induction l as [|a l IH]; simpl; [reflexivity|rewrite IH; lia]. Qed.

Lemma backoff_nonneg retry attempts :
  Forall (fun a => 0 <= a) attempts -> 0 <= backoff retry attempts.
Proof.
  induction 1 as [|a l Ha Hl IH]; simpl; [lia|].
  destruct (a <? retry - 1); lia.
Qed.

Lemma range_nonneg n : Forall (fun a => 0 <= a) (range n).
Proof.
  unfold range. apply List.Forall_forall. intros a Ha.
  apply List.in_map_iff in Ha. destruct Ha as (k & <- & _). lia.
Qed.

Lemma backoff_all_sleep retry k :
  Z.of_nat k <= retry - 1 ->
  2 * backoff retry (map Z.of_nat (seq 0 k)) = Z.of_nat k * (Z.of_nat k + 1).
Proof.
  induction k as [|k IH]; intros Hk; [reflexivity|].
  rewrite List.seq_S, List.map_app, backoff_app. simpl.
  destruct (Z.ltb_spec (Z.of_nat k) (retry - 1)); [|lia].
  rewrite Z.mul_add_distr_l, IH by lia. lia.
Qed.

(** The back-off of a URL whose attempts all fail: 1 + 2 + ... +
    (retry - 1) seconds. *)
Lemma backoff_range retry :
  0 <= retry -> 2 * backoff retry (range retry) = retry * (retry - 1).
Proof.
  intros Hretry. unfold range.
  destruct (Z.to_nat retry) as [|k] eqn:Hn; [simpl; lia|].
  rewrite List.seq_S, List.map_app, backoff_app. simpl.
  destruct (Z.ltb_spec (Z.of_nat k) (retry - 1)); [lia|].
  rewrite Z.mul_add_distr_l, backoff_all_sleep by lia. lia.
Qed.

Section Facts.

Variable W : World.

(** One attempt sends between one and six requests and does not sleep. *)
Lemma connect_attempt_trace network_id rpc_url st r st1 :
  connect_attempt W network_id rpc_url st = (r, st1) ->
  slept (trace st1) = slept (trace st) /\
  (requests_sent (trace st) < requests_sent (trace st1)
   <= requests_sent (trace st) + 6)%nat.
Proof.
  open_attempt. reduce.
  destruct (is_connected (W (moment st) rpc_url)) as [[|]|]; reduce.
  2,3: intros H; inversion H; subst; reduce;
       rewrite ?slept_app, ?requests_sent_app; simpl; lia.
  destruct (get_block_latest (W (moment st) rpc_url)) as [[b|]|]; reduce.
  2,3: intros H; inversion H; subst; reduce;
       rewrite ?slept_app, ?requests_sent_app; simpl; lia.
  destruct (chain_id (W (moment st) rpc_url)) as [c|]; reduce.
  2: intros H; inversion H; subst; reduce;
     rewrite ?slept_app, ?requests_sent_app; simpl; lia.
  destruct (negb (c =? network_id)); reduce.
  1: intros H; inversion H; subst; reduce;
     rewrite ?slept_app, ?requests_sent_app; simpl; lia.
  destruct (still_connected (W (moment st) rpc_url)) as [[|]|]; reduce.
  2,3: intros H; inversion H; subst; reduce;
       rewrite ?slept_app, ?requests_sent_app; simpl; lia.
  destruct (block_number (W (moment st) rpc_url)) as [n|]; reduce.
  2: intros H; inversion H; subst; reduce;
     rewrite ?slept_app, ?requests_sent_app; simpl; lia.
  destruct (syncing (W (moment st) rpc_url)) as [[|]|]; reduce;
    rewrite ConnFacts.add_network_middlewares_outcome;
    destruct (layer_missing network_id); reduce;
    intros H; inversion H; subst; reduce;
    rewrite ?slept_app, ?requests_sent_app; simpl; lia.
Qed.

(** X6.  An attempt returns a provider exactly when the endpoint passes the
    liveness probe, has a latest block, reports the requested chain, still
    answers the second probe and gives its block number, and the network
    is not one of 56, 97, 137 and 80001, for which
    [add_network_middlewares] calls [inject] without a layer and raises.
    The answer to the sync request is not among the conditions: a node
    that says it is still syncing is accepted like one that is not. *)
Theorem connect_attempt_succeeds_iff network_id rpc_url st :
  (exists p st1, connect_attempt W network_id rpc_url st = (inr p, st1))
  <->
  is_connected (W (moment st) rpc_url) = Returns true /\
  (exists b, get_block_latest (W (moment st) rpc_url) = Returns (Some b)) /\
  chain_id (W (moment st) rpc_url) = Returns network_id /\
  still_connected (W (moment st) rpc_url) = Returns true /\
  (exists n, block_number (W (moment st) rpc_url) = Returns n) /\
  network_id <> 56 /\ network_id <> 97 /\ network_id <> 137 /\ network_id <> 80001.
Proof.
  assert (Hlayer : layer_missing network_id = false
                   <-> network_id <> 56 /\ network_id <> 97 /\
                       network_id <> 137 /\ network_id <> 80001).
  { unfold layer_missing. simpl.
    destruct (Z.eqb_spec network_id 56), (Z.eqb_spec network_id 97),
      (Z.eqb_spec network_id 137), (Z.eqb_spec network_id 80001); simpl;
      split; intros H; try discriminate H; try tauto; repeat split; assumption. }
  rewrite <- Hlayer. clear Hlayer.
  open_attempt. reduce.
  destruct (is_connected (W (moment st) rpc_url)) as [[|]|]; reduce.
  2,3: split; [intros (p & st1 & H); discriminate H|intros (H & _); discriminate H].
  destruct (get_block_latest (W (moment st) rpc_url)) as [[b|]|]; reduce.
  2,3: split; [intros (p & st1 & H); discriminate H
              |intros (_ & (b & H) & _); discriminate H].
  destruct (chain_id (W (moment st) rpc_url)) as [c|]; reduce.
  2: split; [intros (p & st1 & H); discriminate H|intros (_ & _ & H & _); discriminate H].
  destruct (Z.eqb_spec c network_id) as [->|Hne]; reduce.
  2: split; [intros (p & st1 & H); discriminate H
            |intros (_ & _ & H & _); inversion H; contradiction].
  destruct (still_connected (W (moment st) rpc_url)) as [[|]|]; reduce.
  2,3: split; [intros (p & st1 & H); discriminate H
              |intros (_ & _ & _ & H & _); discriminate H].
  destruct (block_number (W (moment st) rpc_url)) as [n|]; reduce.
  2: split; [intros (p & st1 & H); discriminate H
            |intros (_ & _ & _ & _ & (n & H) & _); discriminate H].
  destruct (syncing (W (moment st) rpc_url)) as [[|]|]; reduce;
    rewrite ConnFacts.add_network_middlewares_outcome;
    destruct (layer_missing network_id); reduce;
    (split; [intros (p & st1 & H); first [discriminate H | repeat split; eauto]
            |intros (_ & _ & _ & _ & _ & H); first [discriminate H | eauto]]).
Qed.

(** What the loop over the attempts does to the dictionary and what it
    reports. *)
Lemma attempts_loop_dictionary network_id retry rpc_url attempts :
  forall last_error st r st',
    attempts_loop W network_id retry rpc_url attempts last_error st = (r, st') ->
    (forall k, k <> network_id -> web3_providers st' !! k = web3_providers st !! k) /\
    match r with
    | inl p => web3_providers st' !! network_id = Some p
    | inr last_error' =>
        web3_providers st' = web3_providers st /\
        (attempts = [] -> last_error' = last_error) /\
        (attempts <> [] -> exists e, last_error' = Some e)
    end.
Proof.
  induction attempts as [|attempt attempts IH]; intros last_error st r st'; simpl.
  - intros H. inversion H; subst. split; [reflexivity|]. repeat split; congruence.
  - destruct (connect_attempt W network_id rpc_url st) as [[e|p] st1] eqn:Hatt.
    + destruct (ConnFacts.connect_attempt_raises _ _ _ _ _ _ Hatt) as [Hsame _].
      intros Hloop. apply IH in Hloop. destruct Hloop as [Hother Hres].
      assert (Hd : web3_providers
                     (advance (if attempt <? retry - 1
                               then log (Sleep (1 * (attempt + 1))) st1 else st1))
                   = web3_providers st).
      { destruct (attempt <? retry - 1); simpl; exact Hsame. }
      rewrite Hd in *. split; [exact Hother|].
      destruct r as [p|last_error']; [exact Hres|].
      destruct Hres as (Heq & Hnil & Hcons). split; [exact Heq|].
      split; [discriminate|]. intros _.
      destruct attempts as [|a attempts'].
      * exists e. apply Hnil. reflexivity.
      * apply Hcons. discriminate.
    + destruct (ConnFacts.connect_attempt_returns _ _ _ _ _ _ Hatt) as (_ & _ & Hins & _).
      intros H. inversion H; subst r st'. simpl. rewrite Hins. split.
      * intros k Hk. rewrite lookup_insert_ne; [reflexivity|congruence].
      * apply lookup_insert_eq.
Qed.

Lemma urls_loop_dictionary network_id retry urls :
  forall last_error st r st',
    urls_loop W network_id retry urls last_error st = (r, st') ->
    (forall k, k <> network_id -> web3_providers st' !! k = web3_providers st !! k) /\
    match r with
    | inl p => web3_providers st' !! network_id = Some p
    | inr last_error' =>
        web3_providers st' = web3_providers st /\
        (urls = [] \/ range retry = [] -> last_error' = last_error) /\
        (urls <> [] -> range retry <> [] -> exists e, last_error' = Some e)
    end.
Proof.
  induction urls as [|rpc_url urls IH]; intros last_error st r st'; simpl.
  - intros H. inversion H; subst. split; [reflexivity|].
    repeat split; congruence.
  - destruct (attempts_loop W network_id retry rpc_url (range retry) last_error st)
      as [[p|last_error1] st1] eqn:Hloop;
      destruct (attempts_loop_dictionary _ _ _ _ _ _ _ _ Hloop) as [Hother Hres].
    + intros H. inversion H; subst r st'. split; assumption.
    + destruct Hres as (Heq & Hnil & Hcons).
      intros Hurls. apply IH in Hurls. destruct Hurls as [Hother' Hres'].
      rewrite Heq in *. split; [exact Hother'|].
      destruct r as [p|last_error']; [exact Hres'|].
      destruct Hres' as (Heq' & Hnil' & Hcons'). split; [exact Heq'|]. split.
      * intros [Habs|Hempty]; [discriminate Habs|].
        rewrite Hnil', Hnil; auto.
      * intros _ Hrange. destruct urls as [|u urls'].
        -- rewrite Hnil' by (left; reflexivity). apply Hcons. exact Hrange.
        -- apply Hcons'; [discriminate|exact Hrange].
Qed.

Lemma cached_provider_dictionary network_id force_new st o st' :
  cached_provider W network_id force_new st = (o, st') ->
  (forall k, k <> network_id -> web3_providers st' !! k = web3_providers st !! k) /\
  (forall p, o = Some p -> web3_providers st' !! network_id = Some p) /\
  slept (trace st') = slept (trace st) /\
  (requests_sent (trace st') <= requests_sent (trace st) + 1)%nat.
Proof.
  unfold cached_provider. destruct force_new.
  { intros H. inversion H; subst. repeat split; try discriminate; lia. }
  destruct (web3_providers st !! network_id) as [provider|] eqn:Hlook.
  2:{ intros H. inversion H; subst. repeat split; try discriminate; lia. }
  unfold rpc.
  destruct (is_connected (W (moment st) (url provider))) as [[|]|];
    intros H; inversion H; subst o st'; clear H; simpl;
    rewrite slept_app, requests_sent_app; simpl;
    (split; [|split; [|split; [lia|lia]]]); try discriminate; auto.
  - intros p Hp. inversion Hp; subst. exact Hlook.
  - intros k Hk. rewrite lookup_delete_ne; [reflexivity|congruence].
Qed.

Lemma attempts_loop_cost network_id retry rpc_url attempts :
  forall last_error st r st',
    Forall (fun a => 0 <= a) attempts ->
    attempts_loop W network_id retry rpc_url attempts last_error st = (r, st') ->
    slept (trace st) <= slept (trace st') <= slept (trace st) + backoff retry attempts /\
    (forall last_error', r = inr last_error' ->
       slept (trace st') = slept (trace st) + backoff retry attempts) /\
    (requests_sent (trace st')
     <= requests_sent (trace st) + 6 * List.length attempts)%nat.
Proof.
  induction attempts as [|attempt attempts IH]; intros last_error st r st' Hpos; simpl.
  - intros H. inversion H; subst. repeat split; lia.
  - apply List.Forall_cons_iff in Hpos. destruct Hpos as [Ha Hpos].
    pose proof (backoff_nonneg retry attempts Hpos) as Hb.
    destruct (connect_attempt W network_id rpc_url st) as [[e|p] st1] eqn:Hatt;
      destruct (connect_attempt_trace _ _ _ _ _ Hatt) as [Hs Hr].
    + intros Hloop. apply IH in Hloop; [|exact Hpos].
      destruct Hloop as (Hbound & Hexact & Hreq).
      assert (Hsl : slept (trace (advance (if attempt <? retry - 1
                                           then log (Sleep (1 * (attempt + 1))) st1
                                           else st1)))
                    = slept (trace st)
                      + (if attempt <? retry - 1 then 1 * (attempt + 1) else 0)).
      { destruct (attempt <? retry - 1); simpl; rewrite ?slept_app; simpl; lia. }
      assert (Hrq : requests_sent (trace (advance (if attempt <? retry - 1
                                           then log (Sleep (1 * (attempt + 1))) st1
                                           else st1)))
                    = requests_sent (trace st1)).
      { destruct (attempt <? retry - 1); simpl; rewrite ?requests_sent_app; simpl; lia. }
      rewrite Hsl in *. rewrite Hrq in *.
      assert (0 <= (if attempt <? retry - 1 then 1 * (attempt + 1) else 0))
        by (destruct (attempt <? retry - 1); lia).
      repeat split; try lia.
      intros last_error' Hr'. specialize (Hexact last_error' Hr'). lia.
    + intros H. inversion H; subst r st'. simpl.
      assert (0 <= (if attempt <? retry - 1 then 1 * (attempt + 1) else 0))
        by (destruct (attempt <? retry - 1); lia).
      repeat split; try lia. intros last_error' Habs. discriminate Habs.
Qed.

Lemma urls_loop_cost network_id retry urls :
  forall last_error st r st',
    urls_loop W network_id retry urls last_error st = (r, st') ->
    slept (trace st) <= slept (trace st')
      <= slept (trace st) + Z.of_nat (List.length urls) * backoff retry (range retry) /\
    (forall last_error', r = inr last_error' ->
       slept (trace st')
       = slept (trace st) + Z.of_nat (List.length urls) * backoff retry (range retry)) /\
    (requests_sent (trace st')
     <= requests_sent (trace st)
        + 6 * List.length (range retry) * List.length urls)%nat.
Proof.
  pose proof (backoff_nonneg retry (range retry) (range_nonneg retry)) as Hb.
  induction urls as [|rpc_url urls IH]; intros last_error st r st'.
  - simpl. intros H. inversion H; subst. repeat split; lia.
  - cbn [urls_loop].
    destruct (attempts_loop W network_id retry rpc_url (range retry) last_error st)
      as [[p|last_error1] st1] eqn:Hloop;
      destruct (attempts_loop_cost _ _ _ _ _ _ _ _ (range_nonneg retry) Hloop)
        as (Hbound & Hexact & Hreq).
    + intros H. inversion H; subst r st'.
      rewrite List.length_cons.
      repeat split; try nia. intros last_error' Habs. discriminate Habs.
    + specialize (Hexact _ eq_refl).
      intros Hurls. apply IH in Hurls. destruct Hurls as (Hbound' & Hexact' & Hreq').
      rewrite List.length_cons.
      repeat split; try nia.
      intros last_error' Hr'. specialize (Hexact' _ Hr'). nia.
Qed.

Section Configured.

Variable configs : gmap Z NetworkConfig.

(** X7.  A provider that [get_web3_provider] returns is the one the
    dictionary holds for the network afterwards, whether it came from the
    dictionary or from a new connection (which replaces the entry). *)
Theorem returned_provider_is_cached network_id force_new st p ok st' :
  get_web3_provider W configs network_id force_new st = (inr (p, ok), st') ->
  web3_providers st' !! network_id = Some p.
Proof.
  unfold get_web3_provider.
  destruct (configs !! network_id) as [config|]; [|discriminate].
  destruct (cached_provider W network_id force_new st) as [[provider|] st1] eqn:Hcached;
    destruct (cached_provider_dictionary _ _ _ _ _ Hcached) as (_ & Hhit & _).
  - intros H. inversion H; subst. apply Hhit. reflexivity.
  - destruct (urls_loop W network_id (retry_count config) (rpc_urls config) None st1)
      as [[provider|last_error] st2] eqn:Hloop; [|discriminate].
    destruct (urls_loop_dictionary _ _ _ _ _ _ _ Hloop) as [_ Hres].
    intros H. inversion H; subst. exact Hres.
Qed.

(** X8.  A call for one network never touches the entry of another
    network, whatever the call does and however it ends. *)
Theorem other_networks_untouched network_id force_new st r st' k :
  get_web3_provider W configs network_id force_new st = (r, st') ->
  k <> network_id ->
  web3_providers st' !! k = web3_providers st !! k.
Proof.
  unfold get_web3_provider. intros Hcall Hk.
  destruct (configs !! network_id) as [config|]; [|inversion Hcall; subst; reflexivity].
  destruct (cached_provider W network_id force_new st) as [[provider|] st1] eqn:Hcached;
    destruct (cached_provider_dictionary _ _ _ _ _ Hcached) as (Hother & _).
  - inversion Hcall; subst. apply Hother. exact Hk.
  - destruct (urls_loop W network_id (retry_count config) (rpc_urls config) None st1)
      as [[provider|last_error] st2] eqn:Hloop;
      destruct (urls_loop_dictionary _ _ _ _ _ _ _ Hloop) as [Hother' _];
      inversion Hcall; subst; rewrite Hother' by exact Hk; apply Hother; exact Hk.
Qed.

(** X9.  A cache hit costs one request: when the dictionary holds a
    provider for the network and its liveness probe answers [True], the
    call returns that provider after this single request, without going
    through the endpoints and without touching the dictionary. *)
Theorem cache_hit_single_probe network_id config st p :
  configs !! network_id = Some config ->
  web3_providers st !! network_id = Some p ->
  is_connected (W (moment st) (url p)) = Returns true ->
  get_web3_provider W configs network_id false st
  = (inr (p, true),
     mkState (web3_providers st) (S (moment st))
       (trace st ++ [Rpc (url p) is_connected_m])).
Proof.
  intros Hconfig Hlook Hlive.
  unfold get_web3_provider, cached_provider, rpc.
  rewrite Hconfig, Hlook, Hlive. reflexivity.
Qed.

(** X10.  When every endpoint fails, the dictionary is what it was, except
    that the entry of the network is gone if the liveness probe of the
    cached provider raised.  A cached provider whose probe answered
    [False] stays in the dictionary although it is dead and nothing
    replaced it. *)
Theorem failure_keeps_or_evicts network_id force_new st last_error st' :
  get_web3_provider W configs network_id force_new st
  = (inl (AllRpcsFailed network_id last_error), st') ->
  web3_providers st'
  = match force_new, web3_providers st !! network_id with
    | false, Some p =>
        match is_connected (W (moment st) (url p)) with
        | Raises _ => delete network_id (web3_providers st)
        | Returns _ => web3_providers st
        end
    | _, _ => web3_providers st
    end.
Proof.
  unfold get_web3_provider.
  destruct (configs !! network_id) as [config|]; [|discriminate].
  destruct (cached_provider W network_id force_new st) as [[provider|] st1] eqn:Hcached;
    [discriminate|].
  destruct (urls_loop W network_id (retry_count config) (rpc_urls config) None st1)
    as [[provider|last_error1] st2] eqn:Hloop; [discriminate|].
  destruct (urls_loop_dictionary _ _ _ _ _ _ _ Hloop) as [_ (Heq & _)].
  intros H. inversion H; subst. rewrite Heq. clear Hloop Heq H.
  unfold cached_provider in Hcached. destruct force_new.
  { inversion Hcached; subst. reflexivity. }
  destruct (web3_providers st !! network_id) as [p|].
  2:{ inversion Hcached; subst. reflexivity. }
  unfold rpc in Hcached.
  destruct (is_connected (W (moment st) (url p))) as [[|]|];
    inversion Hcached; subst; reflexivity.
Qed.

(** X11.  The failure carries no cause exactly when no attempt was made:
    the network has no URL or its [retry_count] is below 1.  In that case
    a forced call fails at once, without a request and without a sleep. *)
Theorem failure_without_cause network_id config force_new st last_error st' :
  configs !! network_id = Some config ->
  get_web3_provider W configs network_id force_new st
  = (inl (AllRpcsFailed network_id last_error), st') ->
  (last_error = None <-> rpc_urls config = [] \/ retry_count config < 1) /\
  (last_error = None -> force_new = true -> st' = st).
Proof.
  intros Hconfig. unfold get_web3_provider. rewrite Hconfig.
  destruct (cached_provider W network_id force_new st) as [[provider|] st1] eqn:Hcached;
    [discriminate|].
  destruct (urls_loop W network_id (retry_count config) (rpc_urls config) None st1)
    as [[provider|last_error1] st2] eqn:Hloop; [discriminate|].
  intros H. inversion H; subst last_error1 st2. clear H.
  destruct (urls_loop_dictionary _ _ _ _ _ _ _ Hloop) as [_ (_ & Hnil & Hcons)].
  assert (Hrange : range (retry_count config) = [] <-> retry_count config < 1).
  { unfold range. destruct (Z.to_nat (retry_count config)) eqn:Hn; simpl.
    - split; [lia|reflexivity].
    - split; [discriminate|lia]. }
  assert (Hiff : last_error = None <-> rpc_urls config = [] \/ retry_count config < 1).
  { split.
    - intros Hnone.
      destruct (rpc_urls config) as [|u urls] eqn:Hurls; [left; reflexivity|].
      destruct (range (retry_count config)) as [|a l] eqn:Hr.
      + right. apply Hrange. reflexivity.
      + destruct Hcons as [e He]; try discriminate. congruence.
    - intros [Hurls|Hretry]; apply Hnil; [left; exact Hurls|right].
      apply Hrange. exact Hretry. }
  split; [exact Hiff|].
  intros Hnone Hforce. subst force_new.
  unfold cached_provider in Hcached. inversion Hcached; subst st1.
  apply Hiff in Hnone. clear Hnil Hcons Hiff Hcached.
  destruct Hnone as [Hurls|Hretry].
  - rewrite Hurls in Hloop. simpl in Hloop. inversion Hloop. reflexivity.
  - apply Hrange in Hretry.
    assert (Hall : forall urls le s, urls_loop W network_id (retry_count config) urls le s
                                     = (inr le, s)).
    { induction urls as [|u urls IH]; intros le s; simpl; [reflexivity|].
      rewrite Hretry. simpl. apply IH. }
    rewrite Hall in Hloop. inversion Hloop. reflexivity.
Qed.

(** X12.  The cost of a call is bounded by the configuration: it sleeps at
    most [1 + 2 + ... + (retry_count - 1)] seconds per URL and sends at
    most six requests per attempt, plus the probe of the cached provider;
    when every endpoint fails it has slept exactly that long. *)
Theorem call_cost_bounded network_id config force_new st r st' :
  configs !! network_id = Some config ->
  0 <= retry_count config ->
  get_web3_provider W configs network_id force_new st = (r, st') ->
  let urls := Z.of_nat (List.length (rpc_urls config)) in
  let retry := retry_count config in
  0 <= 2 * (slept (trace st') - slept (trace st)) <= urls * (retry * (retry - 1)) /\
  (forall last_error, r = inl (AllRpcsFailed network_id last_error) ->
     2 * (slept (trace st') - slept (trace st)) = urls * (retry * (retry - 1))) /\
  Z.of_nat (requests_sent (trace st')) - Z.of_nat (requests_sent (trace st))
  <= 1 + 6 * retry * urls.
Proof.
  intros Hconfig Hretry Hcall urls retry.
  unfold get_web3_provider in Hcall. rewrite Hconfig in Hcall.
  pose proof (backoff_range (retry_count config) Hretry) as Hclosed. fold retry in Hclosed.
  assert (Hlen : Z.of_nat (List.length (range (retry_count config))) = retry).
  { rewrite ConnFacts.range_length. subst retry. lia. }
  assert (Hcost : urls * (retry * (retry - 1)) = 2 * (urls * backoff retry (range retry))).
  { rewrite <- Hclosed. ring. }
  assert (Hb : 0 <= urls * backoff retry (range retry)).
  { apply Z.mul_nonneg_nonneg; [subst urls; lia|].
    apply backoff_nonneg, range_nonneg. }
  assert (Hq : 0 <= retry * urls).
  { apply Z.mul_nonneg_nonneg; subst urls retry; lia. }
  rewrite Hcost. clear Hcost Hclosed.
  destruct (cached_provider W network_id force_new st) as [[provider|] st1] eqn:Hcached;
    destruct (cached_provider_dictionary _ _ _ _ _ Hcached) as (_ & _ & Hs & Hr).
  - inversion Hcall; subst r st'.
    split; [lia|]. split; [intros last_error Habs; discriminate Habs|lia].
  - destruct (urls_loop W network_id (retry_count config) (rpc_urls config) None st1)
      as [[provider|last_error1] st2] eqn:Hloop;
      destruct (urls_loop_cost _ _ _ _ _ _ _ Hloop) as (Hbound & Hexact & Hreq);
      inversion Hcall; subst r st';
      fold retry urls in Hbound, Hexact;
      apply Nat2Z.inj_le in Hreq;
      rewrite Nat2Z.inj_add, !Nat2Z.inj_mul, Hlen in Hreq;
      change (Z.of_nat 6) with 6 in Hreq; fold urls in Hreq.
    + split; [lia|]. split; [intros last_error Habs; discriminate Habs|lia].
    + specialize (Hexact _ eq_refl).
      split; [lia|]. split; [intros last_error _; lia|lia].
Qed.

End Configured.

End Facts.

(** X6 at work: the same healthy answers give a provider for chain 1 and
    none for chain 56. *)
Lemma connect_attempt_succeeds_iff_witness :
  (exists p st1,
     connect_attempt Scenarios.mainnet_up 1 "https://eth.drpc.org" initial = (inr p, st1)) /\
  ~ (exists p st1,
       connect_attempt Scenarios.bsc_up 56 "https://bsc-dataseed.binance.org" initial
       = (inr p, st1)) /\
  fst (get_web3_provider Scenarios.bsc_up NETWORK_CONFIGS 56 false initial)
  = inl (AllRpcsFailed 56 (Some layer_error)).
Proof.
  split; [|split].
  - apply (connect_attempt_succeeds_iff Scenarios.mainnet_up 1 "https://eth.drpc.org" initial).
    repeat split; try discriminate; eexists; reflexivity.
  - intros H.
    apply (connect_attempt_succeeds_iff Scenarios.bsc_up 56
             "https://bsc-dataseed.binance.org" initial) in H.
    destruct H as (_ & _ & _ & _ & _ & H & _). apply H. reflexivity.
  - vm_compute. reflexivity.
Defined.

Lemma returned_provider_is_cached_witness :
  let call := get_web3_provider Scenarios.mainnet_up NETWORK_CONFIGS 1 false initial in
  fst call = inr (mkProvider "https://eth.drpc.org" 0, true) /\
  web3_providers (snd call) !! 1 = Some (mkProvider "https://eth.drpc.org" 0).
Proof.
  intros call.
  assert (Hcall : call = (inr (mkProvider "https://eth.drpc.org" 0, true), snd call))
    by (vm_compute; reflexivity).
  split; [rewrite Hcall; reflexivity|].
  exact (returned_provider_is_cached Scenarios.mainnet_up NETWORK_CONFIGS 1 false initial
           _ _ _ Hcall).
Defined.

Lemma other_networks_untouched_witness :
  let st := snd (get_web3_provider Scenarios.mainnet_up NETWORK_CONFIGS 1 false initial) in
  let st' := snd (get_web3_provider Scenarios.mainnet_up NETWORK_CONFIGS 56 false st) in
  web3_providers st' !! 1 = Some (mkProvider "https://eth.drpc.org" 0).
Proof.
  intros st st'.
  assert (Hne : 1 <> 56) by discriminate.
  rewrite (other_networks_untouched Scenarios.mainnet_up NETWORK_CONFIGS 56 false st
             _ st' 1 (surjective_pairing _) Hne).
  vm_compute. reflexivity.
Defined.

Lemma cache_hit_single_probe_witness :
  let st := snd (get_web3_provider Scenarios.mainnet_up NETWORK_CONFIGS 1 false initial) in
  let p := mkProvider "https://eth.drpc.org" 0 in
  get_web3_provider Scenarios.mainnet_up NETWORK_CONFIGS 1 false st
  = (inr (p, true),
     mkState (web3_providers st) (S (moment st))
       (trace st ++ [Rpc "https://eth.drpc.org" is_connected_m])).
Proof.
  intros st p.
  destruct (NETWORK_CONFIGS !! 1) as [config|] eqn:Hconfig;
    [|vm_compute in Hconfig; discriminate Hconfig].
  assert (Hlook : web3_providers st !! 1 = Some p) by (vm_compute; reflexivity).
  assert (Hlive : is_connected (Scenarios.mainnet_up (moment st) (url p)) = Returns true)
    by reflexivity.
  exact (cache_hit_single_probe Scenarios.mainnet_up NETWORK_CONFIGS 1 config st p
           Hconfig Hlook Hlive).
Defined.

(** The stale entry: the provider stored at moment 0 is dead at moment 1,
    its probe answers [False], every endpoint fails, and the dictionary
    still holds it. *)
Lemma failure_keeps_or_evicts_witness :
  let W := Scenarios.up_then_down in
  let st := snd (get_web3_provider W NETWORK_CONFIGS 1 false initial) in
  let call := get_web3_provider W NETWORK_CONFIGS 1 false st in
  fst call = inl (AllRpcsFailed 1 (Some BasicConnectionTestFailed)) /\
  web3_providers (snd call) !! 1 = Some (mkProvider "https://eth.drpc.org" 0).
Proof.
  intros W st call.
  assert (Hcall : call = (inl (AllRpcsFailed 1 (Some BasicConnectionTestFailed)), snd call))
    by (vm_compute; reflexivity).
  split; [rewrite Hcall; reflexivity|].
  rewrite (failure_keeps_or_evicts W NETWORK_CONFIGS 1 false st _ _ Hcall).
  vm_compute. reflexivity.
Defined.

Lemma failure_without_cause_witness :
  get_web3_provider Scenarios.mainnet_up Scenarios.no_endpoints 7 true initial
  = (inl (AllRpcsFailed 7 None), initial).
Proof.
  destruct (Scenarios.no_endpoints !! 7) as [config|] eqn:Hconfig;
    [|vm_compute in Hconfig; discriminate Hconfig].
  assert (Hcall : get_web3_provider Scenarios.mainnet_up Scenarios.no_endpoints 7 true initial
                  = (inl (AllRpcsFailed 7 None),
                     snd (get_web3_provider Scenarios.mainnet_up Scenarios.no_endpoints 7
                            true initial))) by (vm_compute; reflexivity).
  pose proof (proj2 (failure_without_cause Scenarios.mainnet_up Scenarios.no_endpoints 7
                       config true initial None _ Hconfig Hcall) eq_refl eq_refl) as Hst.
  rewrite Hcall, Hst. reflexivity.
Defined.

(** With the shipped configuration of chain 1 (4 URLs, 3 attempts) and no
    endpoint answering, a call sleeps 4 * (1 + 2) = 12 seconds. *)
Lemma call_cost_bounded_witness :
  let st' := snd (get_web3_provider Scenarios.all_down NETWORK_CONFIGS 1 false initial) in
  slept (trace st') = 12 /\ (requests_sent (trace st') = 12)%nat.
Proof.
  intros st'.
  destruct (NETWORK_CONFIGS !! 1) as [config|] eqn:Hconfig;
    [|vm_compute in Hconfig; discriminate Hconfig].
  assert (Hcfg : config = default config (NETWORK_CONFIGS !! 1)) by (rewrite Hconfig; reflexivity).
  assert (Hretry : retry_count config = 3) by (rewrite Hcfg; vm_compute; reflexivity).
  assert (Hurls : List.length (rpc_urls config) = 4%nat)
    by (rewrite Hcfg; vm_compute; reflexivity).
  assert (Hpos : 0 <= retry_count config) by lia.
  assert (Hcall : get_web3_provider Scenarios.all_down NETWORK_CONFIGS 1 false initial
                  = (inl (AllRpcsFailed 1 (Some BasicConnectionTestFailed)), st'))
    by (vm_compute; reflexivity).
  destruct (call_cost_bounded Scenarios.all_down NETWORK_CONFIGS 1 config false initial
              _ st' Hconfig Hpos Hcall) as (_ & Hexact & _).
  specialize (Hexact _ eq_refl). rewrite Hretry, Hurls in Hexact. simpl in Hexact.
  split; [lia|vm_compute; reflexivity].
Defined.

End ManagerFacts.

(* ===================================================================== *)
(** ** Further properties of the scoring pipeline *)
(* ===================================================================== *)

Module ScoringFacts.

Import Scanner Observed.

Open Scope Q_scope.







(** The static findings, whichever fire. *)
Lemma static_findings_known source_code f :
  In f (fst (static_analysis source_code)) ->
  f = reentrancy \/ f = unchecked_return \/ f = integer_overflow \/ f = tx_origin.
Proof.
  destruct (ScannerFacts.static_analysis_closed_form source_code) as [-> _].
  destruct (has_reentrancy source_code), (has_unchecked_return source_code),
    (lacks_safemath source_code), (has_tx_origin source_code); simpl; intuition.
Qed.

(** The dictionaries of the early returns. *)
Lemma verify_network_early W configs network st early st' :
  verify_network W configs network st = (Some early, st') ->
  exists e recommendations,
    early = refused e recommendations /\
    forall n, e <> CannotConnect n.
Proof.
  unfold verify_network.
  assert (Hverify : forall w3 st1,
    match Conn.rpc W w3 Conn.chain_id_m Conn.chain_id st1 with
    | (inl e, s) =>
        (Some (refused (ChainUnverified (name network) e)
                 (Some ["Check network connectivity"%string])), Conn.advance s)
    | (inr chain, s) =>
        if negb (chain =? chain_id network)%Z
        then (Some (refused (ChainMismatch (name network) (chain_id network) chain)
                      (Some ["Verify network configuration"%string])), Conn.advance s)
        else (None, Conn.advance s)
    end = (Some early, st') ->
    exists e recommendations,
      early = refused e recommendations /\ forall n, e <> CannotConnect n).
  { intros w3 st1.
    destruct (Conn.rpc W w3 Conn.chain_id_m Conn.chain_id st1) as [[e|chain] s].
    - intros H. inversion H; subst. eexists _, _. split; [reflexivity|discriminate].
    - destruct (negb (chain =? chain_id network)%Z);
        intros H; inversion H; subst. eexists _, _. split; [reflexivity|discriminate]. }
  destruct (Conn.get_web3_provider W configs (chain_id network) false st)
    as [[e|[w3 ok]] st1] eqn:Hcall.
  - intros H. inversion H; subst. eexists _, _. split; [reflexivity|discriminate].
  - assert (Hok : ok = true).
    { unfold Conn.get_web3_provider in Hcall.
      destruct (configs !! chain_id network); [|discriminate].
      destruct (Conn.cached_provider W (chain_id network) false st) as [[p|] s1];
        [inversion Hcall; reflexivity|].
      destruct (Conn.urls_loop W (chain_id network) _ _ None s1) as [[p|le] s2];
        inversion Hcall; reflexivity. }
    subst ok. apply Hverify.
Qed.

Section Scan.

Variable W : Conn.World.
Variable configs : gmap Z Conn.NetworkConfig.
Variable query_get : Z -> option Network.

(** The three ways a scan ends. *)
Lemma analyze_contract_cases client source_code network_id st out st' :
  analyze_contract W configs query_get client source_code network_id st = (out, st') ->
  (exists e recommendations,
     out = refused e recommendations /\ forall n, e <> CannotConnect n) \/
  out = inspect client source_code.
Proof.
  unfold analyze_contract.
  destruct (query_get network_id) as [network|].
  2:{ intros H. inversion H; subst. left. eexists _, _. split; [reflexivity|discriminate]. }
  destruct (verify_network W configs network st) as [[early|] st1] eqn:Hverify;
    intros H; inversion H; subst.
  - left. eapply verify_network_early. exact Hverify.
  - right. reflexivity.
Qed.

(** X15.  The score of a contract scan never exceeds 1, on every path,
    the refusals included (they carry 1.0).  It is not clamped from below:
    it is non-negative when the service sends no negative score, and an
    answer with a score of -0.7 or less makes the final score negative
    (over the reals the threshold is -2/3; the margin keeps the statement
    clear of the rounding of line 132). *)
Theorem contract_score_at_most_one client source_code network_id st out st' :
  analyze_contract W configs query_get client source_code network_id st = (out, st') ->
  risk_score out <= 1 /\
  ((forall answer a, client = Returns answer -> ca_risk_score answer = Some a -> 0 <= a) ->
   0 <= risk_score out) /\
  (forall answer a, client = Returns answer -> ca_error answer = None ->
     ca_risk_score answer = Some a -> a <= -(7 # 10) -> error out = None ->
     risk_score out < 0).
Proof.
  intros Hscan.
  pose proof (ScannerFacts.static_score_range source_code) as [Hl _].
  destruct (analyze_contract_cases _ _ _ _ _ _ Hscan)
    as [(e & recommendations & -> & _)| ->].
  { simpl. split; [vm_compute; discriminate|]. split; [intros _; vm_compute; discriminate|].
    intros answer a _ _ _ _ Habs. discriminate Habs. }
  destruct client as [answer|msg].
  - destruct (ca_error answer) as [err|] eqn:Herr.
    + unfold inspect, analyze_smart_contract.
      destruct (static_analysis source_code) as [found l]. rewrite Herr. simpl in *.
      destruct (Q.min_spec l 1.0) as [[H1 H2]|[H1 H2]].
      * repeat split; try lra. intros a s Ha Habs. inversion Ha; subst. congruence.
      * repeat split; try lra. intros a s Ha Habs. inversion Ha; subst. congruence.
    + unfold inspect, analyze_smart_contract.
      destruct (static_analysis source_code) as [found l]. rewrite Herr. simpl in *.
      set (x := 0.6 * default 0.5 (ca_risk_score answer) + 0.4 * Qmin l 1.0).
      assert (Hx : Qmin x 1.0 <= 1 /\ Qmin x 1.0 <= x /\ (x <= 1 -> Qmin x 1.0 == x)).
      { destruct (Q.min_spec x 1.0) as [[H1 H2]|[H1 H2]]; repeat split; intros; lra. }
      destruct Hx as (Hx1 & Hx2 & Hx3).
      assert (Hm : 0 <= Qmin l 1.0 <= 1).
      { destruct (Q.min_spec l 1.0) as [[H1 H2]|[H1 H2]]; lra. }
      split; [exact Hx1|]. split.
      * intros Hpos.
        assert (Ha : 0 <= default 0.5 (ca_risk_score answer)).
        { destruct (ca_risk_score answer) as [a|] eqn:Hs; simpl.
          - apply (Hpos answer a); [reflexivity|exact Hs].
          - vm_compute. discriminate. }
        destruct (Q.min_spec x 1.0) as [[H1 H2]|[H1 H2]]; unfold x in *; lra.
      * intros a s Ha _ Hs Hneg _. inversion Ha; subst a.
        unfold x in *. rewrite Hs in *. simpl in *. lra.
  - rewrite ScannerFacts.inspect_failed. simpl.
    destruct (Q.min_spec (snd (static_analysis source_code)) 1.0) as [[H1 H2]|[H1 H2]];
      repeat split; try lra; intros a s Ha; discriminate Ha.
Qed.

(** X16.  The second call of [get_web3_provider], with [force_new=True],
    is never made: the function returns its provider with [True] or
    raises, so the test of line 22 never holds and no scan ends with the
    cannot-establish-connection error of lines 26-31. *)
Theorem cannot_connect_never_returned client source_code network_id st out st' n :
  analyze_contract W configs query_get client source_code network_id st = (out, st') ->
  error out <> Some (CannotConnect n).
Proof.
  intros Hscan.
  destruct (analyze_contract_cases _ _ _ _ _ _ Hscan)
    as [(e & recommendations & -> & Hne)| ->].
  - simpl. intros H. inversion H. apply (Hne n). assumption.
  - unfold inspect. destruct (static_analysis source_code) as [found l].
    destruct (ca_error (analyze_smart_contract client)); discriminate.
Qed.

(** X17.  A scan is refused before anything is sent when the network row
    is missing or its chain has no configuration: the output is the
    invalid-network error, respectively the network error around the
    unsupported-network exception, with score 1.0 and no findings, and the
    state of the connection manager is untouched. *)
Theorem scan_refused_without_request client source_code network_id st :
  (query_get network_id = None ->
   analyze_contract W configs query_get client source_code network_id st
   = (mkScanOutput (Some InvalidNetwork) [] 1.0 None, st)) /\
  (forall network,
     query_get network_id = Some network ->
     configs !! chain_id network = None ->
     analyze_contract W configs query_get client source_code network_id st
     = (mkScanOutput
          (Some (NetworkError (name network)
                   (Conn.UnsupportedNetwork (chain_id network))))
          [] 1.0
          (Some ["Verify network availability"; "Check RPC endpoint status"]%string),
        st)).
Proof.
  split.
  - intros Hnone. unfold analyze_contract. rewrite Hnone. reflexivity.
  - intros network Hsome Hconfig.
    unfold analyze_contract, verify_network, Conn.get_web3_provider.
    rewrite Hsome, Hconfig. reflexivity.
Qed.

End Scan.

Lemma contract_score_at_most_one_witness :
  let answer := mkCodeAnalysis None None (Some (-1)) in
  let out :=
    fst (analyze_contract Scenarios.mainnet_up Conn.NETWORK_CONFIGS Scenarios.networks
           (Returns answer) Scenarios.clean 1 Conn.initial) in
  error out = None /\ risk_score out < 0 /\ risk_score out <= 1.
Proof.
  intros answer out.
  assert (Hok : error out = None) by (vm_compute; reflexivity).
  assert (Hneg : -1 <= -(7 # 10)) by (vm_compute; discriminate).
  destruct (contract_score_at_most_one Scenarios.mainnet_up Conn.NETWORK_CONFIGS
              Scenarios.networks (Returns answer) Scenarios.clean 1 Conn.initial out _
              (surjective_pairing _)) as (Hle & _ & Hbelow).
  split; [exact Hok|]. split; [|exact Hle].
  exact (Hbelow answer (-1) eq_refl eq_refl eq_refl Hneg Hok).
Defined.

(** Why the threshold of X15 has a margin: just below -2/3 the sum of line
    132 rounds to zero in binary64, at -0.7 it is negative. *)
Lemma threshold_needs_margin :
  Binary64.final_score (-0.6666666666666667) Scenarios.four_patterns = 0%float /\
  PrimFloat.ltb (Binary64.final_score (-0.7) Scenarios.four_patterns) 0 = true.
Proof. split; reflexivity. Qed.

Lemma cannot_connect_never_returned_witness :
  error (fst (analyze_contract Scenarios.all_down Conn.NETWORK_CONFIGS Scenarios.networks
                (Raises "timeout") Scenarios.clean 1 Conn.initial))
  <> Some (CannotConnect "Ethereum Mainnet").
Proof.
  exact (cannot_connect_never_returned Scenarios.all_down Conn.NETWORK_CONFIGS
           Scenarios.networks (Raises "timeout") Scenarios.clean 1 Conn.initial _ _
           "Ethereum Mainnet" (surjective_pairing _)).
Defined.

Lemma scan_refused_without_request_witness :
  analyze_contract Scenarios.mainnet_up Conn.NETWORK_CONFIGS Scenarios.networks
    (Raises "timeout") Scenarios.clean 99 Conn.initial
  = (mkScanOutput (Some InvalidNetwork) [] 1.0 None, Conn.initial) /\
  analyze_contract Scenarios.mainnet_up Scenarios.no_endpoints Scenarios.networks
    (Raises "timeout") Scenarios.clean 1 Conn.initial
  = (mkScanOutput
       (Some (NetworkError "Ethereum Mainnet" (Conn.UnsupportedNetwork 1))) [] 1.0
       (Some ["Verify network availability"; "Check RPC endpoint status"]%string),
     Conn.initial).
Proof.
  split.
  - apply (proj1 (scan_refused_without_request Scenarios.mainnet_up Conn.NETWORK_CONFIGS
                    Scenarios.networks (Raises "timeout") Scenarios.clean 99 Conn.initial)).
    reflexivity.
  - apply (proj2 (scan_refused_without_request Scenarios.mainnet_up Scenarios.no_endpoints
                    Scenarios.networks (Raises "timeout") Scenarios.clean 1 Conn.initial)
             (mkNetwork "Ethereum Mainnet" 1)).
    + reflexivity.
    + vm_compute. reflexivity.
Defined.

Lemma generate_recommendations_app l l' :
  generate_recommendations (l ++ l')
  = generate_recommendations l ++ generate_recommendations l'.
Proof.
  induction l as [|v l IH]; simpl; [reflexivity|].
  rewrite IH, List.app_assoc. reflexivity.
Qed.

(** X18.  There is one recommendation for each finding whose type is one
    of the four static types, in the order of the findings, and none for
    any other type.  The findings of the inference service are counted
    in: when it reports a finding of one of these types, the advice is
    given again. *)
Theorem recommendations_per_finding :
  (forall l l',
     generate_recommendations (l ++ l')
     = generate_recommendations l ++ generate_recommendations l') /\
  (forall l,
     List.length (generate_recommendations l)
     = List.length (List.filter (fun v => advised (type v)) l)) /\
  (forall answer source_code,
     ca_error answer = None ->
     recommendations (inspect (Returns answer) source_code)
     = Some (generate_recommendations (fst (static_analysis source_code))
             ++ generate_recommendations (default [] (ca_vulnerabilities answer)))).
Proof.
  split; [exact generate_recommendations_app|]. split.
  - induction l as [|v l IH]; simpl; [reflexivity|].
    rewrite List.length_app, IH. unfold advised.
    destruct (String.eqb (type v) "reentrancy"),
      (String.eqb (type v) "unchecked_return"),
      (String.eqb (type v) "integer_overflow"),
      (String.eqb (type v) "tx_origin"); reflexivity.
  - intros answer source_code Herr. unfold inspect, analyze_smart_contract.
    destruct (static_analysis source_code) as [found l]. rewrite Herr. simpl.
    rewrite generate_recommendations_app. reflexivity.
Qed.

Lemma recommendations_per_finding_witness :
  recommendations
    (inspect (Returns (mkCodeAnalysis None
                         (Some [mkFinding "reentrancy" "critical" "Reentrant withdraw"])
                         (Some 0.9%Q)))
       Scenarios.three_patterns)
  = Some ["Implement ReentrancyGuard or checks-effects-interactions pattern";
          "Use SafeMath library for arithmetic operations";
          "Replace tx.origin with msg.sender";
          "Implement ReentrancyGuard or checks-effects-interactions pattern"]%string.
Proof.
  destruct recommendations_per_finding as (_ & _ & Hscan).
  rewrite Hscan by reflexivity. vm_compute. reflexivity.
Defined.

Open Scope string_scope.

(** X19.  The unchecked-return finding is reported exactly when some line
    of the contract holds a low-level call with options and a quoted
    argument ([.call{], then [}("], then [")], in this order) and no line
    of the contract holds [require(] followed by [.call].  One checked
    call anywhere in the contract silences the finding for all calls, and
    a call broken over two lines is not seen. *)
Theorem unchecked_return_reported_iff source_code :
  In unchecked_return (fst (static_analysis source_code))
  <->
  (exists before options arguments after,
     source_code
     = before ++ ".call{" ++ options
         ++ String "}" (String "(" (String Text.dquote EmptyString)) ++ arguments
         ++ String Text.dquote (String ")" EmptyString) ++ after /\
     Text.one_line options = true /\ Text.one_line arguments = true) /\
  ~ (exists before between after,
       source_code = before ++ "require(" ++ between ++ ".call" ++ after /\
       Text.one_line between = true).
Proof.
  rewrite <- TextFacts.search_low_level_call_spec, <- TextFacts.search_require_call_spec.
  destruct (ScannerFacts.static_analysis_closed_form source_code) as [-> _].
  unfold has_unchecked_return.
  destruct (Text.search_low_level_call source_code),
    (Text.search_require_call source_code),
    (has_reentrancy source_code), (lacks_safemath source_code),
    (has_tx_origin source_code); simpl; split;
    try (intros [? ?]; congruence);
    try (intros _; split; [reflexivity|discriminate]);
    try (intros _; auto; fail);
    intros H; repeat (destruct H as [H|H]; try discriminate H); try contradiction.
Qed.

Close Scope string_scope.

(** X20.  Local findings never break the report: every finding of the
    static analysis is rated [high] or [medium], so a stored scan whose
    inference call failed, or whose inference findings are all rated
    [high], [medium] or [low], has a report. *)
Theorem local_findings_reportable W configs query_get client source_code network_id
    st out st' scan_date scan_result :
  analyze_contract W configs query_get client source_code network_id st = (out, st') ->
  Report.store out scan_date = Some scan_result ->
  (forall answer, client = Returns answer -> ca_error answer = None ->
     Forall (fun v => Report.counted (severity v) = true)
       (default [] (ca_vulnerabilities answer))) ->
  exists report, Report.generate_report scan_result = inr report.
Proof.
  intros Hscan Hstore Hai.
  assert (Hstatic : Forall (fun v => Report.counted (severity v) = true)
                      (fst (static_analysis source_code))).
  { apply List.Forall_forall. intros f Hf.
    destruct (static_findings_known _ _ Hf) as [ -> | [ -> | [ -> | -> ]]]; reflexivity. }
  unfold Report.store in Hstore.
  destruct (error out) as [e|] eqn:Herr; [discriminate|].
  inversion Hstore; subst scan_result. clear Hstore.
  rewrite (ScannerFacts.analyze_contract_analysed _ _ _ _ _ _ _ _ _ Hscan Herr).
  unfold Report.generate_report. simpl.
  assert (Hall : Forall (fun v => Report.counted (severity v) = true)
                   (vulnerabilities (inspect client source_code))).
  { unfold inspect. destruct (static_analysis source_code) as [found l]. simpl in Hstatic.
    destruct client as [answer|msg]; simpl.
    - destruct (ca_error answer) eqn:Hca; simpl; [exact Hstatic|].
      apply List.Forall_app. split; [exact Hstatic|]. apply (Hai answer); auto.
    - exact Hstatic. }
  apply (ReportFacts.count_severities_returns _ _ ReportFacts.severity_counts_keys) in Hall.
  destruct Hall as [counts Hcounts]. rewrite Hcounts. eexists. reflexivity.
Qed.

Lemma local_findings_reportable_witness :
  let out :=
    fst (analyze_contract Scenarios.mainnet_up Conn.NETWORK_CONFIGS Scenarios.networks
           (Raises "timeout") Scenarios.four_patterns 1 Conn.initial) in
  exists report,
    Report.generate_report
      (Report.mkScanResult (vulnerabilities out) (risk_score out) 0) = inr report.
Proof.
  intros out.
  apply (local_findings_reportable Scenarios.mainnet_up Conn.NETWORK_CONFIGS
           Scenarios.networks (Raises "timeout") Scenarios.four_patterns 1 Conn.initial
           out _ 0 _ (surjective_pairing _)).
  - vm_compute. reflexivity.
  - intros answer Habs. discriminate Habs.
Defined.

End ScoringFacts.

(* ===================================================================== *)
(** ** Further properties of the report and of the upload names *)
(* ===================================================================== *)

Module ReportMore.

Import Scanner Report Observed.

(** What the loop adds to each counter. *)
Lemma count_severities_adds vulnerabilities :
  forall (counts counts' : gmap string nat) k,
    count_severities vulnerabilities counts = inr counts' ->
    counts' !! k = (fun n => (n + with_severity k vulnerabilities)%nat) <$> counts !! k.
Proof.
  unfold with_severity.
  induction vulnerabilities as [|vuln rest IH]; intros counts counts' k; simpl.
  - intros H. inversion H; subst. destruct (counts' !! k); simpl; f_equal; lia.
  - destruct (counts !! severity vuln) as [n|] eqn:Hlook; [|discriminate].
    intros Hloop. rewrite (IH _ _ k Hloop). rewrite lookup_insert.
    destruct (String.eqb_spec (severity vuln) k) as [Heq|Hne].
    + subst k. rewrite decide_True by reflexivity. rewrite Hlook. simpl. f_equal. lia.
    + rewrite decide_False by exact Hne. destruct (counts !! k); simpl; reflexivity.
Qed.

Lemma counted_total vulnerabilities :
  Forall (fun v => counted (severity v) = true) vulnerabilities ->
  (with_severity "high" vulnerabilities + with_severity "medium" vulnerabilities
   + with_severity "low" vulnerabilities)%nat = List.length vulnerabilities.
Proof.
  unfold with_severity.
  induction 1 as [|v l Hv Hl IH]; simpl; [reflexivity|].
  apply ReportFacts.counted_iff in Hv.
  destruct Hv as [ -> | [ -> | -> ]]; simpl; lia.
Qed.

(** X21.  A report that is returned is consistent with the findings: each
    of the three counters is the number of findings of that severity, the
    counters add up to [total_vulnerabilities], which is the number of
    findings, [critical_findings] are the findings rated [high] (as many
    as the [high] counter says), and [details] and the score are those of
    the scan. *)
Theorem report_counts_add_up scan_result report :
  generate_report scan_result = inr report ->
  let vulnerabilities := sr_vulnerabilities scan_result in
  let breakdown := severity_breakdown (summary report) in
  breakdown !! "high"%string = Some (with_severity "high" vulnerabilities) /\
  breakdown !! "medium"%string = Some (with_severity "medium" vulnerabilities) /\
  breakdown !! "low"%string = Some (with_severity "low" vulnerabilities) /\
  (forall k, is_Some (breakdown !! k) <-> counted k = true) /\
  total_vulnerabilities (summary report) = List.length vulnerabilities /\
  (with_severity "high" vulnerabilities + with_severity "medium" vulnerabilities
   + with_severity "low" vulnerabilities)%nat = total_vulnerabilities (summary report) /\
  List.length (critical_findings (summary report)) = with_severity "high" vulnerabilities /\
  (forall v, In v (critical_findings (summary report))
             <-> In v vulnerabilities /\ severity v = "high"%string) /\
  details report = vulnerabilities /\
  summary_risk_score (summary report) = sr_risk_score scan_result.
Proof.
  intros Hreport. cbv zeta. unfold generate_report in Hreport.
  destruct (count_severities (sr_vulnerabilities scan_result) _) as [e|counts] eqn:Hloop;
    [discriminate|].
  assert (Hall : Forall (fun v => counted (severity v) = true)
                   (sr_vulnerabilities scan_result)).
  { apply (ReportFacts.count_severities_returns _ _ ReportFacts.severity_counts_keys).
    eexists. exact Hloop. }
  inversion Hreport; subst report. clear Hreport. simpl.
  pose proof (fun k => count_severities_adds _ _ _ k Hloop) as Hadd.
  split; [rewrite Hadd; reflexivity|].
  split; [rewrite Hadd; reflexivity|].
  split; [rewrite Hadd; reflexivity|].
  split.
  { intros k. rewrite Hadd, <- ReportFacts.severity_counts_keys.
    rewrite fmap_is_Some. reflexivity. }
  split; [reflexivity|].
  split; [apply counted_total; exact Hall|].
  split; [reflexivity|].
  split; [|split; reflexivity].
  intros v. rewrite List.filter_In.
  split; intros [Hv Hs]; (split; [exact Hv|]).
  - apply String.eqb_eq. exact Hs.
  - apply String.eqb_eq. exact Hs.
Qed.

Lemma report_counts_add_up_witness :
  let findings := [reentrancy; integer_overflow; tx_origin] in
  exists report,
    generate_report (mkScanResult findings 1 0) = inr report /\
    severity_breakdown (summary report) !! "high"%string = Some 2%nat /\
    List.length (critical_findings (summary report)) = 2%nat.
Proof.
  intros findings.
  destruct (generate_report (mkScanResult findings 1 0)) as [e|report] eqn:Hreport;
    [vm_compute in Hreport; discriminate Hreport|].
  exists report. split; [reflexivity|].
  destruct (report_counts_add_up _ _ Hreport) as (Hhigh & _ & _ & _ & _ & _ & Hcrit & _).
  split; [rewrite Hhigh; reflexivity|rewrite Hcrit; reflexivity].
Defined.

End ReportMore.

Module UtilsFacts.

Import Utils.

Open Scope string_scope.

(** The cut at the last dot. *)
Lemma last_dot_spec s : forall before after,
  last_dot s = Some (before, after)
  <-> s = before ++ String dot after /\ dotless after = true.
Proof.
  induction s as [|c s IH]; intros before after; simpl.
  - split; [discriminate|]. intros [H _]. destruct before; discriminate H.
  - destruct (last_dot s) as [[b a]|] eqn:Hlast.
    + split.
      * intros H. inversion H; subst. destruct (proj1 (IH b after) eq_refl) as [-> Hd].
        split; [reflexivity|exact Hd].
      * intros [Heq Hd]. destruct before as [|c' before']; simpl in Heq.
        -- inversion Heq; subst.
           destruct (proj1 (IH b a) eq_refl) as [Hs Ha].
           assert (Habs : dotless (b ++ String dot a) = false).
           { clear. induction b as [|x b IHb]; simpl.
             - reflexivity.
             - rewrite IHb. apply andb_false_r. }
           rewrite <- Hs in Habs. congruence.
        -- inversion Heq; subst.
           assert (Hsome : Some (b, a) = Some (before', after)) by (apply IH; auto).
           inversion Hsome; subst. reflexivity.
    + assert (Hnone : dotless s = true).
      { clear IH. induction s as [|x s IHs]; simpl in *; [reflexivity|].
        destruct (last_dot s) as [[b a]|]; [discriminate|].
        destruct (Ascii.eqb x dot); [discriminate|]. simpl. apply IHs. reflexivity. }
      destruct (Ascii.eqb_spec c dot) as [ -> | Hne].
      * split.
        -- intros H. inversion H; subst. split; [reflexivity|exact Hnone].
        -- intros [Heq Hd]. destruct before as [|c' before']; simpl in Heq.
           ++ inversion Heq; subst. reflexivity.
           ++ inversion Heq; subst.
              assert (Hsome : None = Some (before', after)) by (apply IH; auto).
              discriminate Hsome.
      * split; [discriminate|].
        intros [Heq Hd]. destruct before as [|c' before']; simpl in Heq.
        -- inversion Heq. contradiction.
        -- inversion Heq; subst.
           assert (Hsome : None = Some (before', after)) by (apply IH; auto).
           discriminate Hsome.
Qed.

Lemma allowed_extension extension :
  bool_decide (lower extension ∈ ALLOWED_EXTENSIONS) = true
  <-> lower extension = "sol" \/ lower extension = "txt".
Proof.
  rewrite bool_decide_eq_true. unfold ALLOWED_EXTENSIONS.
  rewrite elem_of_union, !elem_of_singleton. reflexivity.
Qed.

(** X22.  [allowed_file] accepts a name exactly when the text after its
    last dot, in lower case, is [sol] or [txt].  Only the last extension
    counts and its case does not; what stands before the last dot does not
    matter and may be empty, and a name without a dot is refused. *)
Theorem allowed_file_iff filename :
  allowed_file filename = true
  <-> exists stem extension,
        filename = stem ++ "." ++ extension /\
        dotless extension = true /\
        (lower extension = "sol" \/ lower extension = "txt").
Proof.
  unfold allowed_file, rsplit_dot.
  destruct (last_dot filename) as [[before after]|] eqn:Hlast.
  - apply last_dot_spec in Hlast. destruct Hlast as [Heq Hd].
    assert (Hdot : Text.contains "." filename = true).
    { apply TextFacts.contains_spec. exists before, after. exact Heq. }
    rewrite Hdot. simpl. rewrite allowed_extension. split.
    + intros Hext. exists before, after. auto.
    + intros (stem & extension & Heq' & Hd' & Hext).
      assert (Hsame : last_dot filename = Some (stem, extension))
        by (apply last_dot_spec; auto).
      assert (Hhere : last_dot filename = Some (before, after))
        by (apply last_dot_spec; auto).
      rewrite Hsame in Hhere. inversion Hhere; subst. exact Hext.
  - rewrite andb_false_r. split; [discriminate|].
    intros (stem & extension & Heq & Hd & _).
    assert (Hsame : last_dot filename = Some (stem, extension))
      by (apply last_dot_spec; auto).
    rewrite Hsame in Hlast. discriminate Hlast.
Qed.

End UtilsFacts.
